(** * ruzanovafit.com: the review proxy and the asset cache worker

    The repository has two small stateful components:

    - the Netlify function "Yelp Reviews with cache" (the review proxy),
      a handler over two module-level variables [cached] and [cacheTime];
    - [service-worker.js], three listeners over the browser's cache
      storage.

    Both are embedded below as functions over explicit state.  Everything
    the platform answers (the clock, the environment, the network, the
    serializer) is an input of the embedding. *)

From Stdlib Require Import Strings.Ascii.
From stdpp Require Import base strings list gmap pretty.

Open Scope string_scope.
Open Scope Z_scope.

(** ** The fragment of JavaScript values the sources compute with *)

Module Js.

(** Values as [JSON.parse] produces them, plus [undefined], which the
    handler creates when it reads a property that is not there.  Numbers
    are only copied and tested for truthiness by the sources, never
    computed with; they are carried as integers.  An object lists its own
    properties in insertion order, each key once (as [JSON.parse] and
    object literals build them). *)
#[local] Set Warnings "-register-all".
Inductive Value : Type :=
| VUndefined
| VNull
| VBool (b : bool)
| VNum (n : Z)
| VStr (s : string)
| VArr (items : list Value)
| VObj (props : list (string * Value)).

(** ToBoolean *)
Definition truthy (v : Value) : bool :=
  match v with
  | VUndefined | VNull => false
  | VBool b => b
  | VNum n => negb (n =? 0)
  | VStr s => negb (String.eqb s "")
  | VArr _ | VObj _ => true
  end.

(** [a || b] *)
Definition or_else (a b : Value) : Value := if truthy a then a else b.

(** Own property of an object literal; [undefined] when it has none. *)
Fixpoint own_prop (props : list (string * Value)) (k : string) : Value :=
  match props with
  | [] => VUndefined
  | (k', v) :: rest => if String.eqb k' k then v else own_prop rest k
  end.

(** An [Error] object, as far as the sources look at it. *)
Record Exn : Type := { message : string }.

(** The two ways ordinary expressions of the handler can throw a
    [TypeError]; the text of the message is the engine's. *)
Inductive Fault : Type :=
| ReadOfNullish (base : Value) (prop : string)
| NotCallable (prop : string).

(** Computations that may throw. *)
Definition Attempt (A : Type) : Type := Exn + A.

Definition ret {A} (a : A) : Attempt A := inr a.
Definition throw {A} (e : Exn) : Attempt A := inl e.
Definition bind {A B} (m : Attempt A) (k : A -> Attempt B) : Attempt B :=
  match m with
  | inl e => inl e
  | inr a => k a
  end.

Fixpoint map_attempt {A B} (f : A -> Attempt B) (l : list A) : Attempt (list B) :=
  match l with
  | [] => ret []
  | x :: rest =>
      bind (f x) (fun y => bind (map_attempt f rest) (fun ys => ret (y :: ys)))
  end.

Section engine.

(** The message the engine puts in a [TypeError]. *)
Variable engine_message : Fault -> string.

Definition type_error {A} (f : Fault) : Attempt A :=
  throw {| message := engine_message f |}.

(** [v.k], for the property names the sources read ([reviews],
    [rating], [text], [time_created], [user], [url]): none of them is
    on a built-in prototype, so on anything but an object with that own
    property the read gives [undefined]; on [null] and [undefined] it
    throws. *)
Definition get (v : Value) (k : string) : Attempt Value :=
  match v with
  | VUndefined | VNull => type_error (ReadOfNullish v k)
  | VObj props => ret (own_prop props k)
  | VBool _ | VNum _ | VStr _ | VArr _ => ret VUndefined
  end.

(** [v?.k], for the names [name] and [location]. *)
Definition get_opt (v : Value) (k : string) : Value :=
  match v with
  | VObj props => own_prop props k
  | _ => VUndefined
  end.

(** [v.map(f)]: only arrays have a [map] that can be called. *)
Definition array_map (v : Value) (f : Value -> Attempt Value) : Attempt Value :=
  match v with
  | VArr items => bind (map_attempt f items) (fun out => ret (VArr out))
  | VUndefined | VNull => type_error (ReadOfNullish v "map")
  | VBool _ | VNum _ | VStr _ | VObj _ => type_error (NotCallable "map")
  end.

End engine.

(** *** A reference rendering of values as JSON text

    The handler is embedded for any serializer; this one serves to run it
    on concrete inputs.  It follows [JSON.stringify] on the values above:
    properties holding [undefined] are left out of objects, [undefined] in
    an array prints as [null].  The handler only ever serializes objects. *)

Definition hex_digit (n : N) : ascii :=
  ascii_of_N (if (n <? 10)%N then 48 + n else 87 + n)%N.

Definition escape_char (c : ascii) : string :=
  let n := N_of_ascii c in
  if (n =? 34)%N then String "\" (String c "")
  else if (n =? 92)%N then String c (String c "")
  else if (n =? 8)%N then "\b"
  else if (n =? 9)%N then "\t"
  else if (n =? 10)%N then "\n"
  else if (n =? 12)%N then "\f"
  else if (n =? 13)%N then "\r"
  else if (n <? 32)%N then
    "\u00" ++ String (hex_digit (n / 16)%N) (String (hex_digit (n mod 16)%N) "")
  else String c "".

Fixpoint escape (s : string) : string :=
  match s with
  | "" => ""
  | String c rest => escape_char c ++ escape rest
  end.

Definition quoted (s : string) : string :=
  String "034" (escape s ++ String "034" "").

Fixpoint commas (l : list string) : string :=
  match l with
  | [] => ""
  | [x] => x
  | x :: rest => x ++ "," ++ commas rest
  end.

Fixpoint render (v : Value) : string :=
  match v with
  | VUndefined | VNull => "null"
  | VBool b => if b then "true" else "false"
  | VNum n => pretty n
  | VStr s => quoted s
  | VArr items => "[" ++ commas (List.map render items) ++ "]"
  | VObj props =>
      "{" ++ commas
               (List.flat_map
                  (fun '(k, x) =>
                     match x with
                     | VUndefined => []
                     | _ => [quoted k ++ ":" ++ render x]
                     end)
                  props) ++ "}"
  end.

End Js.

Declare Scope attempt_scope.
Notation "x <- m ;; k" := (Js.bind m (fun x => k))
  (at level 100, m at next level, right associativity, only parsing)
  : attempt_scope.

(** ** The review proxy (Netlify function) *)

Module ReviewProxy.
Import Js.
#[local] Open Scope attempt_scope.

Definition YELP_BUSINESS_ID : string :=
  "elena-ruzanova-personal-trainer-and-nutritionist-san-jose".
Definition CACHE_TTL_MS : Z := 60 * 60 * 1000.

(** The two module-level variables, [let cached = null; let cacheTime = 0]. *)
Record Store : Type := { cached : Value; cacheTime : Z }.

Definition initial : Store := {| cached := VNull; cacheTime := 0 |}.

Record Event : Type := { httpMethod : string }.

(** What the handler returns. *)
Record Reply : Type :=
  { statusCode : Z; headers : list (string * string); body : string }.

(** The call [fetch(url, { headers: { Authorization } })]. *)
Record UpstreamRequest : Type := { url : string; authorization : string }.

(** The upstream [Response]: its status and what [res.json()] settles to. *)
Record UpstreamResponse : Type := { status : Z; json : Attempt Value }.

(** [res.ok] *)
Definition ok (res : UpstreamResponse) : bool :=
  (200 <=? status res) && (status res <=? 299).

(** What the platform answers during one invocation. *)
Record Host : Type :=
  { now_at_check : Z;      (* Date.now() in the freshness test *)
    now_at_store : Z;      (* Date.now() when the cache is written *)
    YELP_API_KEY : option string;   (* process.env.YELP_API_KEY *)
    fetch : UpstreamRequest -> Attempt UpstreamResponse;
    engine_message : Fault -> string }.

(** One invocation: the reply, the module variables afterwards, and the
    upstream calls that were issued. *)
Record Result : Type :=
  { reply : Reply; store : Store; upstream_calls : list UpstreamRequest }.

Definition cors_headers : list (string * string) :=
  [ ("Access-Control-Allow-Origin", "*");
    ("Access-Control-Allow-Headers", "Content-Type");
    ("Content-Type", "application/json") ].

(** [{ error: msg, reviews: [] }] *)
Definition error_payload (msg : string) : Value :=
  VObj [("error", VStr msg); ("reviews", VArr [])].

(** [{ reviews }] *)
Definition payload (reviews : Value) : Value := VObj [("reviews", reviews)].

Definition upstream_request (apiKey : string) : UpstreamRequest :=
  {| url := "https://api.yelp.com/v3/businesses/" ++ YELP_BUSINESS_ID ++ "/reviews";
     authorization := "Bearer " ++ apiKey |}.

Section handler.

(** [JSON.stringify] is the runtime's; the development holds for any. *)
Variable JSON_stringify : Value -> string.

Variable h : Host.

Definition respond (code : Z) (text : string) : Reply :=
  {| statusCode := code; headers := cors_headers; body := text |}.

(** The callback of [.map]. *)
Definition normalize (r : Value) : Attempt Value :=
  rating <- get (engine_message h) r "rating" ;;
  text <- get (engine_message h) r "text" ;;
  time_created <- get (engine_message h) r "time_created" ;;
  user_n <- get (engine_message h) r "user" ;;
  user_l <- get (engine_message h) r "user" ;;
  url <- get (engine_message h) r "url" ;;
  ret (VObj
    [ ("rating", rating);
      ("text", text);
      ("time_created", time_created);
      ("user", VObj
         [ ("name", or_else (get_opt user_n "name") (VStr "Anonymous"));
           ("location", or_else (get_opt user_l "location") (VStr "California")) ]);
      ("url", url) ]).

(** [cached && Date.now() - cacheTime < CACHE_TTL_MS] *)
Definition fresh (st : Store) : bool :=
  truthy (cached st) && (now_at_check h - cacheTime st <? CACHE_TTL_MS).

(** The body of the [try] block. *)
Definition try_block (apiKey : string) (st : Store) : Attempt (Reply * Store) :=
  res <- fetch h (upstream_request apiKey) ;;
  if negb (ok res) then
    ret (respond (status res) (JSON_stringify (error_payload "Yelp API error")), st)
  else
    data <- json res ;;
    listed <- get (engine_message h) data "reviews" ;;
    reviews <- array_map (engine_message h) (or_else listed (VArr [])) normalize ;;
    let st' := {| cached := payload reviews; cacheTime := now_at_store h |} in
    ret (respond 200 (JSON_stringify (cached st')), st').

Definition not_configured (st : Store) : Result :=
  {| reply := respond 500
                (JSON_stringify (error_payload "YELP_API_KEY not configured"));
     store := st;
     upstream_calls := [] |}.

Definition handler (event : Event) (st : Store) : Result :=
  if String.eqb (httpMethod event) "OPTIONS" then
    {| reply := respond 204 ""; store := st; upstream_calls := [] |}
  else if fresh st then
    {| reply := respond 200 (JSON_stringify (cached st));
       store := st; upstream_calls := [] |}
  else
    match YELP_API_KEY h with
    | None => not_configured st
    | Some apiKey =>
        if negb (truthy (VStr apiKey)) then not_configured st
        else
          match try_block apiKey st with
          | inr (r, st') =>
              {| reply := r; store := st';
                 upstream_calls := [upstream_request apiKey] |}
          | inl err =>
              {| reply := respond 500 (JSON_stringify (error_payload (message err)));
                 store := st;
                 upstream_calls := [upstream_request apiKey] |}
          end
    end.

End handler.

(** *** The vocabulary of the properties *)

(** The normalized review of the specification, for an upstream review [r]
    and an output [o]: the five fields in this order, the upstream values
    carried over, and the two defaults.  A name or location is absent when
    reading it off the review gives [undefined] or [null]. *)
Definition absent (v : Value) : Prop := v = VUndefined \/ v = VNull.

Definition Normalized (r o : Value) : Prop :=
  exists name location : Value,
    o = VObj [ ("rating", get_opt r "rating");
               ("text", get_opt r "text");
               ("time_created", get_opt r "time_created");
               ("user", VObj [("name", name); ("location", location)]);
               ("url", get_opt r "url") ]
    /\ (absent (get_opt (get_opt r "user") "name") -> name = VStr "Anonymous")
    /\ (absent (get_opt (get_opt r "user") "location") -> location = VStr "California")
    /\ (truthy (get_opt (get_opt r "user") "name") = true ->
        name = get_opt (get_opt r "user") "name")
    /\ (truthy (get_opt (get_opt r "user") "location") = true ->
        location = get_opt (get_opt r "user") "location").

(** An array element the callback can read properties of. *)
Definition readable (r : Value) : Prop := r <> VUndefined /\ r <> VNull.

(** The result of a successful refresh that produced the list [out]. *)
Definition refreshed (JSON_stringify : Value -> string) (h : Host)
    (apiKey : string) (out : list Value) : Result :=
  {| reply := {| statusCode := 200; headers := cors_headers;
                 body := JSON_stringify (VObj [("reviews", VArr out)]) |};
     store := {| cached := VObj [("reviews", VArr out)];
                 cacheTime := now_at_store h |};
     upstream_calls := [upstream_request apiKey] |}.

(** The result of a failed refresh. *)
Definition failed (JSON_stringify : Value -> string) (code : Z) (msg : string)
    (apiKey : string) (st : Store) : Result :=
  {| reply := {| statusCode := code; headers := cors_headers;
                 body := JSON_stringify
                           (VObj [("error", VStr msg); ("reviews", VArr [])]) |};
     store := st;
     upstream_calls := [upstream_request apiKey] |}.

(** The handler only ever leaves [null] or an object [{ reviews: [...] }]
    in [cached]. *)
Definition well_formed (st : Store) : Prop :=
  cached st = VNull \/ exists out, cached st = VObj [("reviews", VArr out)].

(** *** Concrete inputs *)

Definition GET : Event := {| httpMethod := "GET" |}.
Definition OPTIONS : Event := {| httpMethod := "OPTIONS" |}.

(** Two upstream reviews: one complete, one without a [user]. *)
Definition review_full : Value :=
  VObj [ ("id", VStr "r1"); ("rating", VNum 5); ("text", VStr "Great coach");
         ("time_created", VStr "2024-01-02 10:00:00");
         ("user", VObj [("name", VStr "Ann"); ("location", VStr "San Jose")]);
         ("url", VStr "https://www.yelp.com/r1") ].

Definition review_bare : Value :=
  VObj [ ("rating", VNum 4); ("text", VStr "Good");
         ("time_created", VStr "2024-02-03 11:00:00");
         ("url", VStr "https://www.yelp.com/r2") ].

(** The messages V8 gives the two faults in this handler: the read of a
    property on [null] or [undefined], and the call of
    [(data.reviews || []).map] when it is not a function.  The handler
    only copies the text into the body, so the properties below hold for
    any engine's wording. *)
Definition v8_message (f : Fault) : string :=
  match f with
  | ReadOfNullish v prop =>
      "Cannot read properties of "
      ++ (match v with VNull => "null" | _ => "undefined" end)
      ++ " (reading '" ++ prop ++ "')"
  | NotCallable prop => "(data.reviews || [])." ++ prop ++ " is not a function"
  end.

(** A host whose upstream settles the way [up] says, at time [t]. *)
Definition host_at (t : Z) (key : option string) (up : Attempt UpstreamResponse)
  : Host :=
  {| now_at_check := t; now_at_store := t + 250; YELP_API_KEY := key;
     fetch := fun _ => up; engine_message := v8_message |}.

Definition replied (code : Z) (doc : Attempt Value) : Attempt UpstreamResponse :=
  inr {| status := code; json := doc |}.

Definition two_reviews : Attempt UpstreamResponse :=
  replied 200 (inr (VObj [("reviews", VArr [review_full; review_bare]); ("total", VNum 2)])).


Definition unavailable : Attempt UpstreamResponse :=
  replied 503 (inr (VObj [("error", VStr "unavailable")])).

Definition offline : Attempt UpstreamResponse :=
  inl {| message := "fetch failed" |}.

Definition minutes (n : Z) : Z := n * 60 * 1000.

(** The module variables after a first, successful invocation at time 0. *)
Definition warmed : Store :=
  store (handler render (host_at 0 (Some "secret") two_reviews) GET initial).

(** *** A process over its life *)

(** The module variables after one more invocation, and after a sequence
    of them; every invocation meets its own host. *)
Definition serve (JSON_stringify : Value -> string) (st : Store)
    (inv : Host * Event) : Store :=
  store (handler JSON_stringify inv.1 inv.2 st).

Definition serve_all (JSON_stringify : Value -> string)
    (invs : list (Host * Event)) (st : Store) : Store :=
  foldl (serve JSON_stringify) st invs.

(** A review as the handler stores it: the five fields, with an author
    name and a location that are never empty. *)
Definition complete_review (o : Value) : Prop :=
  exists rating text time_created name location url,
    o = VObj [ ("rating", rating); ("text", text);
               ("time_created", time_created);
               ("user", VObj [("name", name); ("location", location)]);
               ("url", url) ]
    /\ truthy name = true /\ truthy location = true.

(** The cache slot is empty as at process start, or holds a list of
    complete reviews. *)
Definition holds_reviews (st : Store) : Prop :=
  (cached st = VNull /\ cacheTime st = 0)
  \/ exists out, cached st = VObj [("reviews", VArr out)]
                 /\ Forall complete_review out.

(** The three kinds of reply. *)
Inductive ReplyKind : Type :=
| Preflight
| Reviews (doc : Value)
| Failure (code : Z) (msg : string).

Definition reply_of (JSON_stringify : Value -> string) (k : ReplyKind) : Reply :=
  match k with
  | Preflight =>
      {| statusCode := 204; headers := cors_headers; body := "" |}
  | Reviews doc =>
      {| statusCode := 200; headers := cors_headers; body := JSON_stringify doc |}
  | Failure code msg =>
      {| statusCode := code; headers := cors_headers;
         body := JSON_stringify
                   (VObj [("error", VStr msg); ("reviews", VArr [])]) |}
  end.

(** [review_bare] as the handler stores it. *)
Definition review_bare_stored : Value :=
  VObj [ ("rating", VNum 4); ("text", VStr "Good");
         ("time_created", VStr "2024-02-03 11:00:00");
         ("user", VObj [("name", VStr "Anonymous");
                        ("location", VStr "California")]);
         ("url", VStr "https://www.yelp.com/r2") ].

(** Upstream documents that do not have the expected shape. *)
Definition replied_null : Attempt UpstreamResponse := replied 200 (inr VNull).

Definition reviews_as_text : Attempt UpstreamResponse :=
  replied 200 (inr (VObj [("reviews", VStr "none yet")])).

Definition one_null_review : Attempt UpstreamResponse :=
  replied 200 (inr (VObj [("reviews", VArr [review_full; VNull; review_bare])])).

End ReviewProxy.

(** ** The asset cache worker (service-worker.js) *)

Module ServiceWorker.

Definition CACHE_NAME : string := "ruzanova-fitness-v4".

Definition STATIC_ASSETS : list string :=
  [ "/"; "/index.html"; "/styles.css"; "/script.js"; "/booking.html";
    "/site.webmanifest"; "/favicon.svg"; "/favicon-32x32.png";
    "/favicon-16x16.png"; "/apple-touch-icon.png";
    "/assets/photos/hero-stage.jpg"; "/assets/photos/hero-stage.webp";
    "/assets/photos/about-medal.jpg"; "/assets/photos/about-medal.webp";
    "/assets/photos/about-cutout.webp"; "/assets/photos/hero-cutout.webp" ].

(** [event.request], as far as the worker and the Cache API look at it:
    [url] is the serialized URL, fragment included; [headers] is the
    header list of the request. *)
Record Request : Type :=
  { method : string;
    url : string;
    headers : list (string * string);
    destination : string }.

(** What a response carries and the Cache API persists; [vary] lists the
    field values of its [Vary] header, none when it has no such header. *)
Record ResponseData : Type :=
  { status : Z; type : string; vary : list string; content : string }.

(** A [Response] object: its body can be read once. *)
Record ResponseObj : Type := { data : ResponseData; bodyUsed : bool }.

(** A response object nobody has read yet, and one whose body was read. *)
Abbreviation unread d := {| data := d; bodyUsed := false |}.
Abbreviation spent d := {| data := d; bodyUsed := true |}.

(** Response objects live in a heap and are handed around by reference. *)
Definition Ref : Type := nat.

(** *** How the Cache API tells requests apart *)

(** A URL without its fragment: the text before the first [#]. *)
Fixpoint strip_fragment (u : string) : string :=
  match u with
  | "" => ""
  | String c rest =>
      if Ascii.eqb c "#" then "" else String c (strip_fragment rest)
  end.

(** Header names compare without regard to ASCII case. *)
Definition lower_char (c : ascii) : ascii :=
  let n := N_of_ascii c in
  if ((65 <=? n) && (n <=? 90))%N then ascii_of_N (n + 32) else c.

Fixpoint lower (s : string) : string :=
  match s with
  | "" => ""
  | String c rest => String (lower_char c) (lower rest)
  end.

Fixpoint values_of (name : string) (hs : list (string * string)) : list string :=
  match hs with
  | [] => []
  | (n, v) :: rest =>
      if String.eqb (lower n) (lower name) then v :: values_of name rest
      else values_of name rest
  end.

(** The value of a header in a header list: nothing when the list has no
    header of that name, else the values of all of them, joined. *)
Definition combined (name : string) (hs : list (string * string)) : option string :=
  match values_of name hs with
  | [] => None
  | vs => Some (String.concat ", " vs)
  end.

(** A cached pair: the header list of the request that was stored, and
    the response. *)
Record Variant : Type :=
  { sent : list (string * string); answer : ResponseData }.

(** The [Vary] part of "request matches cached item": for every field
    value of the cached response's [Vary], the field is not [*] and the
    stored request and the asking request carry the same value for it. *)
Definition vary_agrees (asked : list (string * string)) (v : Variant) : bool :=
  forallb
    (fun field =>
       negb (String.eqb field "*")
       && bool_decide (combined field (sent v) = combined field asked))
    (vary (answer v)).

(** The first cached pair, in insertion order, that agrees. *)
Fixpoint first_agreeing (asked : list (string * string)) (vs : list Variant)
  : option ResponseData :=
  match vs with
  | [] => None
  | v :: rest =>
      if vary_agrees asked v then Some (answer v) else first_agreeing asked rest
  end.

(** One cache: the pairs it holds, by URL without fragment. *)
Abbreviation Cache := (gmap string (list Variant)).

(** [cache.match(request)]: only GET requests match; the URLs are
    compared without their fragments. *)
Definition cache_lookup (q : Request) (c : Cache) : option ResponseData :=
  if String.eqb (method q) "GET" then
    first_agreeing (headers q) (default [] (c !! strip_fragment (url q)))
  else None.

(** What [cache.put(request, response)] leaves in a cache: the pairs that
    match the request are replaced by the new pair. *)
Definition cache_store (q : Request) (d : ResponseData) (c : Cache) : Cache :=
  <[ strip_fragment (url q) :=
       (filter (fun v => vary_agrees (headers q) v = false)
          (default [] (c !! strip_fragment (url q)))
        ++ [ {| sent := headers q; answer := d |} ])%list ]> c.

(** The browser's [caches]: named caches in creation order. *)
Abbreviation CacheStorage := (list (string * gmap string (list Variant))).

(** The calls the worker makes on the platform, in program order. *)
Inductive Op : Type :=
| OpKeys
| OpDelete (name : string)
| OpOpen (name : string)
| OpAddAll (name : string) (paths : list string)
| OpMatch (key : string)
| OpFetch (req : Request)
| OpClone (src dst : Ref)
| OpPut (name key : string) (r : Ref).

Record World : Type :=
  { caches : CacheStorage; heap : list ResponseObj; log : list Op }.

(** A promise-returning computation: it settles to a value or rejects
    ([None]), and leaves a world behind either way. *)
Definition Task (A : Type) : Type := World -> option A * World.

Definition ret {A} (a : A) : Task A := fun w => (Some a, w).
Definition reject {A} : Task A := fun w => (None, w).
Definition bind {A B} (t : Task A) (k : A -> Task B) : Task B :=
  fun w =>
    match t w with
    | (Some a, w') => k a w'
    | (None, w') => (None, w')
    end.

(** [t.catch(() => k)] *)
Definition catch {A} (t : Task A) (k : Task A) : Task A :=
  fun w =>
    match t w with
    | (Some a, w') => (Some a, w')
    | (None, w') => k w'
    end.

(** A promise chain that is started and not waited for: what it does to
    the world happens, how it settles is dropped. *)
Definition detach {A} (t : Task A) : Task unit :=
  fun w => (Some tt, snd (t w)).

Definition record (o : Op) : Task unit :=
  fun w => (Some tt, {| caches := caches w; heap := heap w; log := log w ++ [o] |}).

Definition alloc (d : ResponseData) : Task Ref :=
  fun w =>
    (Some (length (heap w)),
     {| caches := caches w;
        heap := heap w ++ [{| data := d; bodyUsed := false |}];
        log := log w |}).

Definition read (r : Ref) : Task ResponseObj :=
  fun w => (heap w !! r, w).

Definition set_caches (cs : CacheStorage) : Task unit :=
  fun w => (Some tt, {| caches := cs; heap := heap w; log := log w |}).

Definition consume (r : Ref) : Task unit :=
  fun w =>
    (Some tt,
     {| caches := caches w;
        heap := alter (fun o => {| data := data o; bodyUsed := true |}) r (heap w);
        log := log w |}).

Declare Scope task_scope.
Notation "x <- t ;; k" := (bind t (fun x => k))
  (at level 100, t at next level, right associativity, only parsing)
  : task_scope.
#[local] Open Scope task_scope.

(** *** The cache storage *)

Definition storage_keys (cs : CacheStorage) : list string := cs.*1.

(** [caches.match(request)] looks through the caches in creation order. *)
Fixpoint storage_match (q : Request) (cs : CacheStorage) : option ResponseData :=
  match cs with
  | [] => None
  | (_, c) :: rest =>
      match cache_lookup q c with
      | Some d => Some d
      | None => storage_match q rest
      end
  end.

Definition storage_delete (name : string) (cs : CacheStorage) : CacheStorage :=
  filter (fun p => p.1 <> name) cs.

Definition storage_open (name : string) (cs : CacheStorage) : CacheStorage :=
  if bool_decide (name ∈ storage_keys cs) then cs else (cs ++ [(name, ∅)])%list.

Definition storage_put (name : string) (q : Request) (d : ResponseData)
    (cs : CacheStorage) : CacheStorage :=
  (fun p => if String.eqb p.1 name then (p.1, cache_store q d p.2) else p) <$> cs.

(** What one named cache answers to a request. *)
Definition storage_entry (name : string) (q : Request) (cs : CacheStorage)
  : option ResponseData :=
  storage_match q (filter (fun p => p.1 = name) cs).

(** [caches.keys()] *)
Definition caches_keys : Task (list string) :=
  _ <- record OpKeys ;;
  fun w => (Some (storage_keys (caches w)), w).

(** [caches.delete(name)] *)
Definition caches_delete (name : string) : Task bool :=
  _ <- record (OpDelete name) ;;
  fun w =>
    (Some (bool_decide (name ∈ storage_keys (caches w))),
     {| caches := storage_delete name (caches w); heap := heap w; log := log w |}).

(** [caches.open(name)]: the handle on a cache is its name. *)
Definition caches_open (name : string) : Task string :=
  _ <- record (OpOpen name) ;;
  fun w =>
    (Some name,
     {| caches := storage_open name (caches w); heap := heap w; log := log w |}).

(** [caches.match(request)]: a hit is handed out as a new response object. *)
Definition caches_match (q : Request) : Task (option Ref) :=
  _ <- record (OpMatch (url q)) ;;
  fun w =>
    match storage_match q (caches w) with
    | Some d => (r <- alloc d ;; ret (Some r)) w
    | None => (Some None, w)
    end.

(** [response.clone()] throws when the body was read already. *)
Definition clone (r : Ref) : Task Ref :=
  o <- read r ;;
  if bodyUsed o then reject
  else
    r' <- alloc (data o) ;;
    _ <- record (OpClone r r') ;;
    ret r'.

(** [Promise.all(l.map(f))] *)
Fixpoint for_each {A B} (f : A -> Task B) (l : list A) : Task (list B) :=
  match l with
  | [] => ret []
  | x :: rest =>
      y <- f x ;;
      ys <- for_each f rest ;;
      ret (y :: ys)
  end.

(** The origin of a request URL.  A request carries a serialized http(s)
    URL, [scheme://host[:port]/path...]: its origin is what stands before
    the third slash. *)
Fixpoint upto_slash (n : nat) (s : string) : string :=
  match s with
  | "" => ""
  | String c rest =>
      if Ascii.eqb c "/" then
        match n with
        | O => ""
        | S n' => String c (upto_slash n' rest)
        end
      else String c (upto_slash n rest)
  end.

Definition url_origin (u : string) : string := upto_slash 2 u.

(** A response [cache.addAll] takes: status in 200..299 but not 206, and
    no [*] in [Vary]. *)
Definition acceptable (d : ResponseData) : bool :=
  (200 <=? status d) && (status d <=? 299)
  && negb (status d =? 206)
  && negb (bool_decide ("*" ∈ vary d)).

Section worker.

(** [self.location.origin], an http(s) origin; every URL that begins with
    it is an http(s) URL, which is why the scheme test of [cache.put] and
    [cache.addAll] does not appear below. *)
Variable origin : string.

(** What the network answers to a request; [None] is a failed fetch. *)
Variable network : Request -> option ResponseData.

(** Whether the storage, as it is, has room for these responses; a write
    that finds no room rejects with a quota error. *)
Variable room : CacheStorage -> list ResponseData -> bool.

(** [fetch(request)] *)
Definition fetch (req : Request) : Task Ref :=
  _ <- record (OpFetch req) ;;
  match network req with
  | Some d => alloc d
  | None => reject
  end.

(** [cache.put(request, response)] rejects a request that is not GET, a
    response with status 206, with [*] in [Vary] or with a body that was
    read; else it reads the body of the response it is given and stores
    what it read, unless the storage has no room. *)
Definition cache_put (name : string) (q : Request) (r : Ref) : Task unit :=
  _ <- record (OpPut name (url q) r) ;;
  o <- read r ;;
  if negb (String.eqb (method q) "GET") then reject
  else if status (data o) =? 206 then reject
  else if bool_decide ("*" ∈ vary (data o)) then reject
  else if bodyUsed o then reject
  else
    _ <- consume r ;;
    fun w =>
      if room (caches w) [data o]
      then set_caches (storage_put name q (data o) (caches w)) w
      else reject w.

(** A path given as a string is resolved against the worker's URL, and
    makes a GET request without headers. *)
Definition resolve (path : string) : string := origin ++ path.

Definition request_of_path (path : string) : Request :=
  {| method := "GET"; url := resolve path; headers := []; destination := "" |}.

(** The fetches of [cache.addAll(paths)]: a failed fetch or a response
    that is not acceptable makes the whole call reject. *)
Fixpoint fetch_all (paths : list string) : option (list (Request * ResponseData)) :=
  match paths with
  | [] => Some []
  | p :: rest =>
      match network (request_of_path p) with
      | Some d =>
          if acceptable d then
            match fetch_all rest with
            | Some ds => Some ((request_of_path p, d) :: ds)
            | None => None
            end
          else None
      | None => None
      end
  end.

(** [cache.addAll(paths)]: all or nothing.  After the fetches it rejects
    when two of the requests have the same URL or when the storage has no
    room for the responses. *)
Definition cache_addAll (name : string) (paths : list string) : Task unit :=
  _ <- record (OpAddAll name paths) ;;
  match fetch_all paths with
  | Some ds =>
      fun w =>
        if bool_decide (NoDup ((fun kd => strip_fragment (url kd.1)) <$> ds))
           && room (caches w) ds.*2
        then
          set_caches
            (foldl (fun cs kd => storage_put name kd.1 kd.2 cs) (caches w) ds) w
        else reject w
  | None => reject
  end.

(** The install listener; [skipWaiting] has no part in the cache. *)
Definition on_install : Task unit :=
  catch (cache <- caches_open CACHE_NAME ;;
         cache_addAll cache STATIC_ASSETS)
        (ret tt).

(** The callback of [cacheNames.map] in the activate listener: a promise
    of [caches.delete], or [undefined]. *)
Definition delete_if_old (cacheName : string) : Task (option bool) :=
  if negb (String.eqb cacheName CACHE_NAME) then
    deleted <- caches_delete cacheName ;; ret (Some deleted)
  else ret None.

(** The activate listener; [clients.claim] has no part in the cache. *)
Definition on_activate : Task unit :=
  cacheNames <- caches_keys ;;
  _ <- for_each delete_if_old cacheNames ;;
  ret tt.

(** What the fetch listener does with the event. *)
Inductive Handling : Type :=
| PassThrough                             (* returned without respondWith *)
| RespondWith (settled : option (option Ref)).

(** The promise handed to [event.respondWith]. *)
Definition respond_task (req : Request) : Task (option Ref) :=
  cachedResponse <- caches_match req ;;
  match cachedResponse with
  | Some c => ret (Some c)
  | None =>
      catch
        (response <- fetch req ;;
         o <- read response ;;
         if negb (status (data o) =? 200)
            || negb (String.eqb (type (data o)) "basic")
         then ret (Some response)
         else
           responseToCache <- clone response ;;
           _ <- detach (cache <- caches_open CACHE_NAME ;;
                        cache_put cache req responseToCache) ;;
           ret (Some response))
        (if String.eqb (destination req) "document"
         then caches_match (request_of_path "/index.html")
         else ret None)
  end.

Definition on_fetch (req : Request) (w : World) : Handling * World :=
  if negb (String.eqb (method req) "GET") then (PassThrough, w)
  else if negb (String.prefix origin (url req)) then (PassThrough, w)
  else
    let '(settled, w') := respond_task req w in
    (RespondWith settled, w').

End worker.

(** *** The vocabulary of the properties *)

(** What the page that made the request gets.  [respondWith] turns a
    promise that rejects, or settles to something that is not a response,
    into a network error; without [respondWith] the browser handles the
    request as if there were no worker. *)
Inductive Delivery : Type :=
| BrowserDefault
| Delivered (r : Ref)
| NetworkError.

Definition delivery (hd : Handling) : Delivery :=
  match hd with
  | PassThrough => BrowserDefault
  | RespondWith (Some (Some r)) => Delivered r
  | RespondWith (Some None) | RespondWith None => NetworkError
  end.

(** A response the fetch listener copies into the cache. *)
Definition cacheable (d : ResponseData) : Prop :=
  status d = 200 /\ type d = "basic".

(** A copy the platform takes when the listener puts it: no [*] in
    [Vary], and room in the storage as it is once the current cache is
    open. *)
Definition lands (room : CacheStorage -> list ResponseData -> bool)
    (cs : CacheStorage) (d : ResponseData) : Prop :=
  ("*" ∉ vary d) /\ room (storage_open CACHE_NAME cs) [d] = true.

(** The storage after the listener has opened the current cache and put
    a copy of [d] for the request [q], the put not being waited for. *)
Definition written (room : CacheStorage -> list ResponseData -> bool)
    (q : Request) (d : ResponseData) (cs : CacheStorage) : CacheStorage :=
  if bool_decide ("*" ∈ vary d) then storage_open CACHE_NAME cs
  else if room (storage_open CACHE_NAME cs) [d]
       then storage_put CACHE_NAME q d (storage_open CACHE_NAME cs)
       else storage_open CACHE_NAME cs.

(** Two requests the Cache API cannot tell apart. *)
Definition same_resource (q q' : Request) : Prop :=
  strip_fragment (url q') = strip_fragment (url q) /\ headers q' = headers q.

(** *** Concrete inputs *)

Definition site : string := "https://ruzanovafit.com".

(** A network that serves every URL: same-origin responses are [basic],
    the others [cors]. *)
Definition online (req : Request) : option ResponseData :=
  Some {| status := 200;
          type := if String.eqb (url_origin (url req)) site then "basic" else "cors";
          vary := [];
          content := "content of " ++ url req |}.

Definition offline (req : Request) : option ResponseData := None.

(** A storage with room for everything, and one that is full. *)
Definition roomy (cs : CacheStorage) (ds : list ResponseData) : bool := true.
Definition full (cs : CacheStorage) (ds : list ResponseData) : bool := false.

Definition empty_world : World := {| caches := []; heap := []; log := [] |}.

(** The world after the worker was installed on a working network. *)
Definition installed : World := (on_install site online roomy empty_world).2.

Definition get_request (u dest : string) : Request :=
  {| method := "GET"; url := u; headers := []; destination := dest |}.

(** A script on a host whose name merely begins with the site's. *)
Definition lookalike : Request :=
  get_request "https://ruzanovafit.com.cdn.example/app.js" "script".

(** A network whose responses all carry [Vary: *]. *)
Definition varying (req : Request) : option ResponseData :=
  Some {| status := 200; type := "basic"; vary := ["*"];
          content := "content of " ++ url req |}.

(** *** The worker over its life *)

(** The events the browser sends the worker. *)
Inductive Incoming : Type :=
| Install
| Activate
| Fetch (req : Request).

(** The world after the listener of an event has run to the end. *)
Definition dispatch (origin : string) (network : Request -> option ResponseData)
    (room : CacheStorage -> list ResponseData -> bool)
    (e : Incoming) (w : World) : World :=
  match e with
  | Install => (on_install origin network room w).2
  | Activate => (on_activate w).2
  | Fetch req => (on_fetch origin network room req w).2
  end.

(** A sequence of events, each under the network and the storage room of
    its moment. *)
Definition run (origin : string)
    (script : list ((Request -> option ResponseData)
                    * (CacheStorage -> list ResponseData -> bool)
                    * Incoming))
    (w : World) : World :=
  foldl (fun w ne => dispatch origin (ne.1).1 (ne.1).2 ne.2 w) w script.

(** Only the cache of the current version exists, if any. *)
Definition current_only (cs : CacheStorage) : Prop :=
  storage_keys cs = [] \/ storage_keys cs = [CACHE_NAME].

(** The network answers a manifest path with a 2xx status. *)
Definition served (origin : string) (network : Request -> option ResponseData)
    (p : string) : Prop :=
  exists d, network (request_of_path origin p) = Some d
            /\ 200 <= status d /\ status d <= 299.

(** The network answers a manifest path with a response [cache.addAll]
    takes. *)
Definition accepted (origin : string) (network : Request -> option ResponseData)
    (p : string) : Prop :=
  exists d, network (request_of_path origin p) = Some d /\ acceptable d = true.

(** What the network answers to the paths of a manifest. *)
Definition answers (origin : string) (network : Request -> option ResponseData)
    (paths : list string) : list ResponseData :=
  omap (fun p => network (request_of_path origin p)) paths.

(** A network on which one asset of the manifest is missing. *)
Definition one_missing (req : Request) : option ResponseData :=
  if String.eqb (url req) "https://ruzanovafit.com/favicon.svg" then
    Some {| status := 404; type := "basic"; vary := []; content := "not found" |}
  else online req.

(** A network that answers every request with a partial response. *)
Definition partial (req : Request) : option ResponseData :=
  Some {| status := 206; type := "basic"; vary := [];
          content := "part of " ++ url req |}.

(** A storage in which the cache of the previous version still holds a
    stylesheet the current one does not have. *)
Definition before_activation : World :=
  {| caches := ("ruzanova-fitness-v3",
                {[ "https://ruzanovafit.com/old.css" :=
                     [ {| sent := [];
                          answer := {| status := 200; type := "basic"; vary := [];
                                       content := "old" |} |} ] ]})
               :: caches installed;
     heap := []; log := [] |}.

End ServiceWorker.

(** * Properties of the review proxy *)

Module ReviewProxyProofs.
Import Js ReviewProxy.
#[local] Open Scope attempt_scope.

Section facts.

Variable JSON_stringify : Value -> string.
Variable h : Host.

Lemma absent_falsy v : absent v -> truthy v = false.
Proof. by intros [-> | ->]. Qed.

Lemma get_readable r k :
  readable r -> get (engine_message h) r k = inr (get_opt r k).
Proof. intros [Hu Hn]. by destruct r. Qed.

Lemma normalize_readable r :
  readable r -> exists o, normalize h r = inr o /\ Normalized r o.
Proof.
  intros Hr. unfold normalize. rewrite !(get_readable _ _ Hr). simpl.
  eexists. split; [reflexivity |].
  eexists _, _. split; [reflexivity |]. unfold or_else.
  repeat split.
  - intros Ha. by rewrite (absent_falsy _ Ha).
  - intros Ha. by rewrite (absent_falsy _ Ha).
  - by intros ->.
  - by intros ->.
Qed.

Lemma map_normalize_readable rs :
  Forall readable rs ->
  exists out, map_attempt (normalize h) rs = inr out
              /\ Forall2 (fun r o => normalize h r = inr o /\ Normalized r o) rs out.
Proof.
  induction 1 as [| r rs Hr _ [out [Hout Hall]]].
  - exists []. by split.
  - destruct (normalize_readable r Hr) as [o [Ho Hn]].
    exists (o :: out). simpl. rewrite Ho. simpl. rewrite Hout. simpl.
    split; [reflexivity |]. by constructor.
Qed.

Lemma not_options event :
  httpMethod event = "GET" -> String.eqb (httpMethod event) "OPTIONS" = false.
Proof. by intros ->. Qed.

(** The path into the [try] block. *)
Lemma handler_attempts event st apiKey :
  String.eqb (httpMethod event) "OPTIONS" = false ->
  fresh h st = false ->
  YELP_API_KEY h = Some apiKey ->
  apiKey <> "" ->
  handler JSON_stringify h event st =
    match try_block JSON_stringify h apiKey st with
    | inr (r, st') =>
        {| reply := r; store := st';
           upstream_calls := [upstream_request apiKey] |}
    | inl err => failed JSON_stringify 500 (message err) apiKey st
    end.
Proof.
  intros Hm Hf Hk Hne. unfold handler. rewrite Hm, Hf, Hk.
  assert (truthy (VStr apiKey) = true) as ->; [| done].
  simpl. by apply negb_true_iff, String.eqb_neq.
Qed.

(** A 2xx answer whose document lists [rs] under [reviews]. *)
Lemma try_block_maps apiKey st res data rs :
  fetch h (upstream_request apiKey) = inr res ->
  ok res = true ->
  json res = inr data ->
  get (engine_message h) data "reviews" = inr (VArr rs) ->
  try_block JSON_stringify h apiKey st =
    (out <- map_attempt (normalize h) rs ;;
     ret ({| statusCode := 200; headers := cors_headers;
             body := JSON_stringify (VObj [("reviews", VArr out)]) |},
          {| cached := VObj [("reviews", VArr out)];
             cacheTime := now_at_store h |})).
Proof.
  intros Hf Hok Hj Hg. unfold try_block. rewrite Hf. simpl. rewrite Hok. simpl.
  rewrite Hj. simpl. rewrite Hg. simpl.
  by destruct (map_attempt (normalize h) rs).
Qed.

Lemma array_map_array v f v' :
  array_map (engine_message h) v f = inr v' -> exists out, v' = VArr out.
Proof.
  destruct v; simpl; try discriminate.
  destruct (map_attempt f items); simpl; [discriminate |].
  intros [= <-]. by eexists.
Qed.

Lemma try_block_store apiKey st r st' :
  try_block JSON_stringify h apiKey st = inr (r, st') ->
  st' = st \/ (statusCode r = 200 /\ exists out, cached st' = VObj [("reviews", VArr out)]).
Proof.
  unfold try_block.
  destruct (fetch h (upstream_request apiKey)) as [e | res]; simpl; [discriminate |].
  destruct (ok res); simpl; [| intros [= <- <-]; by left].
  destruct (json res) as [e | doc]; simpl; [discriminate |].
  destruct (get (engine_message h) doc "reviews") as [e | listed]; simpl; [discriminate |].
  destruct (array_map _ _ _) as [e | v] eqn:Hmap; simpl; [discriminate |].
  intros [= <- <-]. right. split; [done |]. simpl.
  destruct (array_map_array _ _ _ Hmap) as [out ->]. by exists out.
Qed.

Lemma handler_well_formed event st :
  well_formed st -> well_formed (store (handler JSON_stringify h event st)).
Proof.
  intros Hwf. unfold handler.
  destruct (String.eqb _ _); [done |].
  destruct (fresh h st); [done |].
  destruct (YELP_API_KEY h) as [apiKey |]; [| done].
  destruct (negb _); [done |].
  destruct (try_block _ _ _ _) as [e | [r st']] eqn:Htry; [done |].
  destruct (try_block_store _ _ _ _ Htry) as [-> | [_ [out Hout]]]; [done |].
  right. by exists out.
Qed.

(** In a well-formed store, "a cache entry exists" is what the handler
    tests. *)
Lemma entry_exists st : well_formed st -> truthy (cached st) = true <-> cached st <> VNull.
Proof. intros [-> | [out ->]]; simpl; split; done. Qed.

(** The cache is only ever written by a reply with status 200. *)
Lemma handler_store_changes event st :
  store (handler JSON_stringify h event st) <> st ->
  statusCode (reply (handler JSON_stringify h event st)) = 200.
Proof.
  unfold handler.
  destruct (String.eqb _ _); [done |].
  destruct (fresh h st); [done |].
  destruct (YELP_API_KEY h) as [apiKey |]; [| done].
  destruct (negb _); [done |].
  destruct (try_block _ _ _ _) as [e | [r st']] eqn:Htry; [done |].
  destruct (try_block_store _ _ _ _ Htry) as [-> | [Hr _]]; done.
Qed.

(** C1. A GET invocation that finds a cache entry younger than one hour
    replies 200 with the serialized cached payload, leaves the module
    variables alone and issues no upstream call. *)
Theorem C1_fresh_entry_is_served event st :
  httpMethod event = "GET" ->
  truthy (cached st) = true ->
  now_at_check h - cacheTime st < CACHE_TTL_MS ->
  handler JSON_stringify h event st =
    {| reply := {| statusCode := 200; headers := cors_headers;
                   body := JSON_stringify (cached st) |};
       store := st;
       upstream_calls := [] |}.
Proof.
  intros Hm Hc Hage. unfold handler, fresh.
  rewrite (not_options _ Hm), Hc.
  by apply Z.ltb_lt in Hage as ->.
Qed.

(** C2, as the code has it.  Without a credential (the variable unset or
    empty) a non-OPTIONS invocation never calls upstream and never
    writes the cache; it replies 500 with
    [{ error: "YELP_API_KEY not configured", reviews: [] }] when there is
    no fresh cache entry, and 200 with the cached payload when there is
    one: the freshness test comes before the credential test. *)
Theorem C2_missing_credential event st :
  httpMethod event <> "OPTIONS" ->
  YELP_API_KEY h = None \/ YELP_API_KEY h = Some "" ->
  upstream_calls (handler JSON_stringify h event st) = []
  /\ store (handler JSON_stringify h event st) = st
  /\ (fresh h st = false ->
      reply (handler JSON_stringify h event st) =
        {| statusCode := 500; headers := cors_headers;
           body := JSON_stringify
                     (VObj [("error", VStr "YELP_API_KEY not configured");
                            ("reviews", VArr [])]) |})
  /\ (fresh h st = true ->
      reply (handler JSON_stringify h event st) =
        {| statusCode := 200; headers := cors_headers;
           body := JSON_stringify (cached st) |}).
Proof.
  intros Hm%String.eqb_neq Hkey. unfold handler. rewrite Hm.
  destruct (fresh h st); [done |].
  by destruct Hkey as [-> | ->].
Qed.

(** C3. When the upstream answers 2xx with a document whose [reviews] is
    an array of reviews, the handler issues that one upstream call,
    normalizes every review (the five fields, "Anonymous" and
    "California" where name or location is absent), stores the list
    with [cacheTime] set to the clock reading at the store, and replies
    200 with the serialization of what it stored. *)
Theorem C3_successful_refresh event st apiKey res data rs :
  httpMethod event <> "OPTIONS" ->
  fresh h st = false ->
  YELP_API_KEY h = Some apiKey ->
  apiKey <> "" ->
  fetch h (upstream_request apiKey) = inr res ->
  ok res = true ->
  json res = inr data ->
  get (engine_message h) data "reviews" = inr (VArr rs) ->
  Forall readable rs ->
  exists out,
    Forall2 Normalized rs out
    /\ handler JSON_stringify h event st =
         {| reply := {| statusCode := 200; headers := cors_headers;
                        body := JSON_stringify (VObj [("reviews", VArr out)]) |};
            store := {| cached := VObj [("reviews", VArr out)];
                        cacheTime := now_at_store h |};
            upstream_calls := [upstream_request apiKey] |}.
Proof.
  intros Hm%String.eqb_neq Hf Hk Hne Hfetch Hok Hj Hg Hrs.
  destruct (map_normalize_readable rs Hrs) as [out [Hout Hall]].
  exists out. split.
  - eapply Forall2_impl; [exact Hall |]. by intros r o [_ Hn].
  - rewrite (handler_attempts _ _ apiKey Hm Hf Hk Hne).
    rewrite (try_block_maps _ _ _ _ _ Hfetch Hok Hj Hg), Hout. reflexivity.
Qed.

(** C4. When the refresh fails the cache is left as it was: a non-2xx
    answer is passed on with its status, and a rejected fetch, a
    rejected [res.json()] or anything thrown while the document is
    mapped gives 500 with the message of what was thrown. *)
Theorem C4_failed_refresh event st apiKey :
  httpMethod event <> "OPTIONS" ->
  fresh h st = false ->
  YELP_API_KEY h = Some apiKey ->
  apiKey <> "" ->
  (forall res,
      fetch h (upstream_request apiKey) = inr res -> ok res = false ->
      handler JSON_stringify h event st =
        failed JSON_stringify (status res) "Yelp API error" apiKey st)
  /\ (forall err,
      fetch h (upstream_request apiKey) = inl err ->
      handler JSON_stringify h event st =
        failed JSON_stringify 500 (message err) apiKey st)
  /\ (forall res err,
      fetch h (upstream_request apiKey) = inr res -> ok res = true ->
      json res = inl err ->
      handler JSON_stringify h event st =
        failed JSON_stringify 500 (message err) apiKey st)
  /\ (forall res data err,
      fetch h (upstream_request apiKey) = inr res -> ok res = true ->
      json res = inr data ->
      (listed <- get (engine_message h) data "reviews" ;;
       array_map (engine_message h) (or_else listed (VArr [])) (normalize h))
        = inl err ->
      handler JSON_stringify h event st =
        failed JSON_stringify 500 (message err) apiKey st).
Proof.
  intros Hm%String.eqb_neq Hf Hk Hne.
  rewrite (handler_attempts _ _ apiKey Hm Hf Hk Hne). unfold try_block.
  repeat split.
  - intros res -> Hok. simpl. by rewrite Hok.
  - by intros err ->.
  - intros res err -> Hok Hj. simpl. by rewrite Hok, Hj.
  - intros res data err -> Hok Hj Hmap. simpl. rewrite Hok, Hj. simpl.
    destruct (get _ data "reviews") as [e | listed]; simpl in *.
    + by injection Hmap as ->.
    + by rewrite Hmap.
Qed.

(** C9. An OPTIONS invocation replies 204 with an empty body and the
    CORS headers, in every store and on every host, without touching the
    cache or the upstream. *)
Theorem C9_preflight event st :
  httpMethod event = "OPTIONS" ->
  handler JSON_stringify h event st =
    {| reply := {| statusCode := 204;
                   headers := [ ("Access-Control-Allow-Origin", "*");
                                ("Access-Control-Allow-Headers", "Content-Type");
                                ("Content-Type", "application/json") ];
                   body := "" |};
       store := st;
       upstream_calls := [] |}.
Proof. intros Hm. unfold handler. by rewrite Hm. Qed.


End facts.

(** *** The theorems at concrete inputs *)

(** Thirty minutes after the first refresh, whatever the host. *)
Lemma C1_witness :
  handler render (host_at (minutes 30) (Some "secret") offline) GET warmed =
    {| reply := {| statusCode := 200; headers := cors_headers;
                   body := render (cached warmed) |};
       store := warmed;
       upstream_calls := [] |}.
Proof.
  apply (C1_fresh_entry_is_served render
           (host_at (minutes 30) (Some "secret") offline) GET warmed).
  - reflexivity.
  - reflexivity.
  - vm_compute. reflexivity.
Defined.

(** C2 as the specification words it ("regardless of cache state") fails
    on a warm cache: thirty minutes after a refresh, with the credential
    gone, the reply is the cached 200. *)
Lemma C2_counterexample :
  httpMethod GET <> "OPTIONS"
  /\ YELP_API_KEY (host_at (minutes 30) None two_reviews) = None
  /\ reply (handler render (host_at (minutes 30) None two_reviews) GET warmed) =
       {| statusCode := 200; headers := cors_headers;
          body := render (cached warmed) |}
  /\ statusCode
       (reply (handler render (host_at (minutes 30) None two_reviews) GET warmed))
     <> 500.
Proof. repeat split; [discriminate | vm_compute; discriminate]. Qed.

(** Sixty-one minutes after the refresh the entry is stale. *)
Lemma C2_witness :
  reply (handler render (host_at (minutes 61) None two_reviews) GET warmed) =
    {| statusCode := 500; headers := cors_headers;
       body := render (VObj [("error", VStr "YELP_API_KEY not configured");
                             ("reviews", VArr [])]) |}
  /\ upstream_calls
       (handler render (host_at (minutes 61) None two_reviews) GET warmed) = [].
Proof.
  destruct (C2_missing_credential render
              (host_at (minutes 61) None two_reviews) GET warmed)
    as (Hcalls & _ & Hstale & _).
  - discriminate.
  - left. reflexivity.
  - split; [apply Hstale; vm_compute; reflexivity | exact Hcalls].
Defined.

(** The first invocation of a process, upstream listing two reviews. *)
Lemma C3_witness :
  exists out,
    Forall2 Normalized [review_full; review_bare] out
    /\ handler render (host_at 0 (Some "secret") two_reviews) GET initial =
         {| reply := {| statusCode := 200; headers := cors_headers;
                        body := render (VObj [("reviews", VArr out)]) |};
            store := {| cached := VObj [("reviews", VArr out)]; cacheTime := 250 |};
            upstream_calls := [upstream_request "secret"] |}.
Proof.
  eapply (C3_successful_refresh render (host_at 0 (Some "secret") two_reviews)
            GET initial "secret").
  - discriminate.
  - reflexivity.
  - reflexivity.
  - discriminate.
  - reflexivity.
  - reflexivity.
  - reflexivity.
  - reflexivity.
  - repeat constructor; discriminate.
Defined.

(** A stale entry survives an upstream 503 and a failed fetch. *)
Lemma C4_witness :
  handler render (host_at (minutes 61) (Some "secret") unavailable) GET warmed =
    failed render 503 "Yelp API error" "secret" warmed
  /\ handler render (host_at (minutes 61) (Some "secret") offline) GET warmed =
       failed render 500 "fetch failed" "secret" warmed.
Proof.
  split.
  - destruct (C4_failed_refresh render
                (host_at (minutes 61) (Some "secret") unavailable) GET warmed "secret")
      as (Hstatus & _); [discriminate | reflexivity | reflexivity | discriminate |].
    apply (Hstatus {| status := 503;
                      json := inr (VObj [("error", VStr "unavailable")]) |});
      reflexivity.
  - destruct (C4_failed_refresh render
                (host_at (minutes 61) (Some "secret") offline) GET warmed "secret")
      as (_ & Hreject & _); [discriminate | reflexivity | reflexivity | discriminate |].
    apply (Hreject {| message := "fetch failed" |}). reflexivity.
Defined.

(** A preflight on a warm cache without credential. *)
Lemma C9_witness :
  handler render (host_at 0 None offline) OPTIONS warmed =
    {| reply := {| statusCode := 204;
                   headers := [ ("Access-Control-Allow-Origin", "*");
                                ("Access-Control-Allow-Headers", "Content-Type");
                                ("Content-Type", "application/json") ];
                   body := "" |};
       store := warmed;
       upstream_calls := [] |}.
Proof.
  apply (C9_preflight render (host_at 0 None offline) OPTIONS warmed).
  reflexivity.
Defined.


(** ** Further properties of the handler *)

Section more.

Variable JSON_stringify : Value -> string.
Variable h : Host.

Lemma or_else_default v d :
  truthy (VStr d) = true -> truthy (or_else v (VStr d)) = true.
Proof. intros Hd. unfold or_else. by destruct (truthy v) eqn:Hv. Qed.

Lemma or_else_idem v d : or_else (or_else v d) d = or_else v d.
Proof.
  unfold or_else.
  destruct (truthy v) eqn:Hv; [by rewrite Hv | by destruct (truthy d)].
Qed.

(** What the callback returns, whenever it returns. *)
Lemma normalize_inv r o :
  normalize h r = inr o ->
  readable r
  /\ o = VObj [ ("rating", get_opt r "rating");
                ("text", get_opt r "text");
                ("time_created", get_opt r "time_created");
                ("user", VObj
                   [ ("name", or_else (get_opt (get_opt r "user") "name")
                                (VStr "Anonymous"));
                     ("location", or_else (get_opt (get_opt r "user") "location")
                                    (VStr "California")) ]);
                ("url", get_opt r "url") ].
Proof.
  destruct r; unfold normalize; simpl; try discriminate;
    intros [= <-]; by repeat split.
Qed.

Lemma normalize_complete r o : normalize h r = inr o -> complete_review o.
Proof.
  intros [_ ->]%normalize_inv. do 6 eexists. split; [reflexivity |].
  split; by apply or_else_default.
Qed.

Lemma map_attempt_Forall {A B} (f : A -> Attempt B) (P : B -> Prop) l out :
  (forall x y, f x = inr y -> P y) ->
  map_attempt f l = inr out -> Forall P out.
Proof.
  intros Hf. revert out. induction l as [| x l IH]; simpl; intros out.
  - by intros [= <-].
  - destruct (f x) as [e | y] eqn:Hx; simpl; [discriminate |].
    destruct (map_attempt f l) as [e | ys]; simpl; [discriminate |].
    intros [= <-]. constructor; eauto.
Qed.

Lemma ok_false res : ok res = false -> status res < 200 \/ 299 < status res.
Proof. unfold ok. intros [?%Z.leb_gt | ?%Z.leb_gt]%andb_false_iff; lia. Qed.

(** How the [try] block can return. *)
Lemma try_block_inv apiKey st r st' :
  try_block JSON_stringify h apiKey st = inr (r, st') ->
  (exists res,
      fetch h (upstream_request apiKey) = inr res /\ ok res = false
      /\ r = reply_of JSON_stringify (Failure (status res) "Yelp API error")
      /\ st' = st)
  \/ (exists out,
      Forall complete_review out
      /\ r = reply_of JSON_stringify (Reviews (VObj [("reviews", VArr out)]))
      /\ st' = {| cached := VObj [("reviews", VArr out)];
                  cacheTime := now_at_store h |}).
Proof.
  unfold try_block.
  destruct (fetch h (upstream_request apiKey)) as [e | res]; simpl; [discriminate |].
  destruct (ok res) eqn:Hok; simpl.
  - destruct (json res) as [e | doc]; simpl; [discriminate |].
    destruct (get (engine_message h) doc "reviews") as [e | listed];
      simpl; [discriminate |].
    destruct (or_else listed (VArr [])) as [| | | | | items |]; simpl;
      try discriminate.
    destruct (map_attempt (normalize h) items) as [e | out] eqn:Hmap;
      simpl; [discriminate |].
    intros [= <- <-]. right. exists out. split; [| done].
    eapply map_attempt_Forall; [| exact Hmap]. apply normalize_complete.
  - intros [= <- <-]. left. by exists res.
Qed.

(** The five ways an invocation can go. *)
Lemma handler_cases event st :
  (httpMethod event = "OPTIONS"
   /\ handler JSON_stringify h event st =
        {| reply := reply_of JSON_stringify Preflight;
           store := st; upstream_calls := [] |})
  \/ (httpMethod event <> "OPTIONS" /\ fresh h st = true
      /\ handler JSON_stringify h event st =
           {| reply := reply_of JSON_stringify (Reviews (cached st));
              store := st; upstream_calls := [] |})
  \/ (httpMethod event <> "OPTIONS" /\ fresh h st = false
      /\ (YELP_API_KEY h = None \/ YELP_API_KEY h = Some "")
      /\ handler JSON_stringify h event st =
           {| reply := reply_of JSON_stringify
                         (Failure 500 "YELP_API_KEY not configured");
              store := st; upstream_calls := [] |})
  \/ (exists apiKey code msg,
        httpMethod event <> "OPTIONS" /\ fresh h st = false
        /\ YELP_API_KEY h = Some apiKey /\ apiKey <> ""
        /\ (code < 200 \/ 299 < code)
        /\ handler JSON_stringify h event st =
             {| reply := reply_of JSON_stringify (Failure code msg);
                store := st; upstream_calls := [upstream_request apiKey] |})
  \/ (exists apiKey out,
        httpMethod event <> "OPTIONS" /\ fresh h st = false
        /\ YELP_API_KEY h = Some apiKey /\ apiKey <> ""
        /\ Forall complete_review out
        /\ handler JSON_stringify h event st =
             {| reply := reply_of JSON_stringify
                           (Reviews (VObj [("reviews", VArr out)]));
                store := {| cached := VObj [("reviews", VArr out)];
                            cacheTime := now_at_store h |};
                upstream_calls := [upstream_request apiKey] |}).
Proof.
  unfold handler.
  destruct (String.eqb (httpMethod event) "OPTIONS") eqn:Hm.
  { left. by apply String.eqb_eq in Hm. }
  apply String.eqb_neq in Hm. right.
  destruct (fresh h st) eqn:Hf; [by left |]. right.
  destruct (YELP_API_KEY h) as [apiKey |] eqn:Hk; [| left; tauto].
  destruct (String.eqb apiKey "") eqn:Hne; simpl; rewrite Hne; simpl.
  { apply String.eqb_eq in Hne as ->. left. tauto. }
  apply String.eqb_neq in Hne. right.
  destruct (try_block JSON_stringify h apiKey st) as [err | [r st']] eqn:Htry.
  - left. exists apiKey, 500, (message err). repeat split; try done. lia.
  - destruct (try_block_inv _ _ _ _ Htry)
      as [(res & _ & Hok & -> & ->) | (out & Hout & -> & ->)].
    + left. exists apiKey, (status res), "Yelp API error".
      repeat split; try done. by apply ok_false.
    + right. by exists apiKey, out.
Qed.

(** X1. Every reply is a preflight answer, a list of reviews or a failure,
    always under the CORS headers.  A list of reviews is what the cache
    holds after the invocation, and it holds something; a failure never
    has a 2xx status and leaves the cache as it was. *)
Theorem reply_kinds event st :
  exists kind,
    reply (handler JSON_stringify h event st) = reply_of JSON_stringify kind
    /\ match kind with
       | Preflight =>
           httpMethod event = "OPTIONS"
           /\ store (handler JSON_stringify h event st) = st
       | Reviews doc =>
           doc = cached (store (handler JSON_stringify h event st))
           /\ truthy doc = true
       | Failure code msg =>
           (code < 200 \/ 299 < code)
           /\ store (handler JSON_stringify h event st) = st
       end.
Proof.
  destruct (handler_cases event st)
    as [(Hm & ->) | [(_ & Hf & ->) | [(_ & _ & _ & ->)
       | [(k & code & msg & _ & _ & _ & _ & Hcode & ->)
       | (k & out & _ & _ & _ & _ & _ & ->)]]]]; simpl.
  - by exists Preflight.
  - exists (Reviews (cached st)). repeat split.
    unfold fresh in Hf. by apply andb_true_iff in Hf as [? _].
  - exists (Failure 500 "YELP_API_KEY not configured"). repeat split. lia.
  - by exists (Failure code msg).
  - by exists (Reviews (VObj [("reviews", VArr out)])).
Qed.

(** X2. A reply other than 200 leaves the module variables untouched, so
    the next invocation goes as if the failed one had not happened: no
    failure is ever served from the cache. *)
Theorem failure_is_not_cached event st :
  statusCode (reply (handler JSON_stringify h event st)) <> 200 ->
  store (handler JSON_stringify h event st) = st
  /\ forall h' event',
       handler JSON_stringify h' event' (store (handler JSON_stringify h event st)) =
       handler JSON_stringify h' event' st.
Proof.
  intros Hcode.
  assert (store (handler JSON_stringify h event st) = st) as Hst.
  { destruct (handler_cases event st)
      as [(_ & Hr) | [(_ & _ & Hr) | [(_ & _ & _ & Hr)
         | [(k & code & msg & _ & _ & _ & _ & _ & Hr)
         | (k & out & _ & _ & _ & _ & _ & Hr)]]]];
      rewrite Hr in *; simpl in *; done. }
  split; [done |]. intros h' event'. by rewrite Hst.
Qed.

(** X3. The handler calls upstream at most once, only the reviews
    endpoint of the one business, only with the configured credential as
    bearer token, and never for a preflight, a fresh cache entry or a
    missing credential. *)
Theorem upstream_call_discipline event st q :
  q ∈ upstream_calls (handler JSON_stringify h event st) ->
  upstream_calls (handler JSON_stringify h event st) = [q]
  /\ url q = "https://api.yelp.com/v3/businesses/elena-ruzanova-personal-trainer-and-nutritionist-san-jose/reviews"
  /\ httpMethod event <> "OPTIONS"
  /\ fresh h st = false
  /\ exists apiKey,
       YELP_API_KEY h = Some apiKey /\ apiKey <> ""
       /\ authorization q = "Bearer " ++ apiKey.
Proof.
  destruct (handler_cases event st)
    as [(_ & ->) | [(_ & _ & ->) | [(_ & _ & _ & ->)
       | [(k & code & msg & Hm & Hf & Hk & Hne & _ & ->)
       | (k & out & Hm & Hf & Hk & Hne & _ & ->)]]]]; simpl;
    try (by intros ?%elem_of_nil);
    intros ->%list_elem_of_singleton; repeat split; try done; by exists k.
Qed.

(** X4. Normalizing is idempotent: a review the callback has produced
    goes through the callback unchanged, on any host. *)
Theorem normalize_idempotent (h' : Host) r o :
  normalize h r = inr o -> normalize h' o = inr o.
Proof.
  intros [_ ->]%normalize_inv. unfold normalize. simpl.
  by rewrite !or_else_idem.
Qed.

(** The first element the callback cannot read stops the whole [map]. *)
Lemma map_attempt_unreadable rs :
  Exists absent rs ->
  exists r0,
    r0 ∈ rs /\ absent r0
    /\ map_attempt (normalize h) rs =
         inl {| message := engine_message h (ReadOfNullish r0 "rating") |}.
Proof.
  induction rs as [| r rs IH]; intros Hex; [by apply Exists_nil in Hex |].
  destruct (normalize h r) as [e | o] eqn:Hr.
  - exists r. split; [by left |].
    destruct r; unfold normalize in Hr; simpl in Hr; try discriminate;
      (split; [by (left + right) |]); simpl; unfold normalize; simpl; done.
  - apply normalize_inv in Hr as Hread. destruct Hread as [[Hu Hn] _].
    apply Exists_cons in Hex as [[? | ?] | Hex]; [done | done |].
    destruct (IH Hex) as (r0 & Hin & Habs & Hfail).
    exists r0. split; [by right |]. split; [done |].
    simpl. rewrite Hr. simpl. by rewrite Hfail.
Qed.

(** X5. One unreadable element spoils the refresh: when the upstream list
    holds a [null] among its reviews, nothing is stored, not even the
    reviews before it; the reply is 500 with the engine's message for the
    property read that failed. *)
Theorem null_review_fails_the_refresh event st apiKey res data rs :
  httpMethod event <> "OPTIONS" ->
  fresh h st = false ->
  YELP_API_KEY h = Some apiKey ->
  apiKey <> "" ->
  fetch h (upstream_request apiKey) = inr res ->
  ok res = true ->
  json res = inr data ->
  get (engine_message h) data "reviews" = inr (VArr rs) ->
  Exists absent rs ->
  exists r0,
    r0 ∈ rs /\ absent r0
    /\ handler JSON_stringify h event st =
         failed JSON_stringify 500
           (engine_message h (ReadOfNullish r0 "rating")) apiKey st.
Proof.
  intros Hm%String.eqb_neq Hf Hk Hne Hfetch Hok Hj Hg Hex.
  destruct (map_attempt_unreadable rs Hex) as (r0 & Hin & Habs & Hfail).
  exists r0. split; [done |]. split; [done |].
  rewrite (handler_attempts _ _ _ _ apiKey Hm Hf Hk Hne).
  by rewrite (try_block_maps _ _ _ _ _ _ _ Hfetch Hok Hj Hg), Hfail.
Qed.

(** X6. A 2xx answer whose document is not of the expected shape: the
    document [null] and a [reviews] that is truthy without being an array
    (a text, a number, an object) give 500 with the engine's message and
    leave the cache alone; a [reviews] that is falsy in any way (missing,
    [null], [false], [0], the empty text) counts as the empty list. *)
Theorem unexpected_document event st apiKey res data :
  httpMethod event <> "OPTIONS" ->
  fresh h st = false ->
  YELP_API_KEY h = Some apiKey ->
  apiKey <> "" ->
  fetch h (upstream_request apiKey) = inr res ->
  ok res = true ->
  json res = inr data ->
  (data = VNull ->
   handler JSON_stringify h event st =
     failed JSON_stringify 500
       (engine_message h (ReadOfNullish VNull "reviews")) apiKey st)
  /\ (forall listed,
        get (engine_message h) data "reviews" = inr listed ->
        truthy listed = true ->
        (forall items, listed <> VArr items) ->
        handler JSON_stringify h event st =
          failed JSON_stringify 500 (engine_message h (NotCallable "map")) apiKey st)
  /\ (forall listed,
        get (engine_message h) data "reviews" = inr listed ->
        truthy listed = false ->
        handler JSON_stringify h event st = refreshed JSON_stringify h apiKey []).
Proof.
  intros Hm%String.eqb_neq Hf Hk Hne Hfetch Hok Hj.
  rewrite (handler_attempts _ _ _ _ apiKey Hm Hf Hk Hne).
  unfold try_block. rewrite Hfetch. simpl. rewrite Hok, Hj. simpl.
  split; [| split].
  - by intros ->.
  - intros listed -> Ht Hna. simpl. unfold or_else. rewrite Ht.
    destruct listed; simpl in *; try done. by destruct (Hna items).
  - intros listed -> Ht. simpl. unfold or_else. by rewrite Ht.
Qed.

(** X7. An entry that is one hour old or older is never served: whenever
    such an invocation replies 200, it has called upstream in this very
    invocation and stamped the cache with the clock reading it took when
    storing. *)
Theorem stale_entry_is_refetched event st :
  httpMethod event <> "OPTIONS" ->
  CACHE_TTL_MS <= now_at_check h - cacheTime st ->
  statusCode (reply (handler JSON_stringify h event st)) = 200 ->
  exists apiKey,
    YELP_API_KEY h = Some apiKey
    /\ upstream_calls (handler JSON_stringify h event st) = [upstream_request apiKey]
    /\ cacheTime (store (handler JSON_stringify h event st)) = now_at_store h.
Proof.
  intros Hm Hage.
  assert (fresh h st = false) as Hstale.
  { unfold fresh. apply andb_false_iff. right. by apply Z.ltb_ge. }
  destruct (handler_cases event st)
    as [(? & _) | [(_ & Hf & _) | [(_ & _ & _ & ->)
       | [(k & code & msg & _ & _ & _ & _ & Hcode & ->)
       | (k & out & _ & _ & Hk & _ & _ & ->)]]]]; simpl;
    try done; try congruence; try lia.
  intros _. by exists k.
Qed.

End more.

Section lifetime.

Variable JSON_stringify : Value -> string.

Lemma handler_holds_reviews h event st :
  holds_reviews st -> holds_reviews (store (handler JSON_stringify h event st)).
Proof.
  intros Hst.
  destruct (handler_cases JSON_stringify h event st)
    as [(_ & ->) | [(_ & _ & ->) | [(_ & _ & _ & ->)
       | [(k & code & msg & _ & _ & _ & _ & _ & ->)
       | (k & out & _ & _ & _ & _ & Hout & ->)]]]]; simpl; try done.
  right. by exists out.
Qed.

(** X8. Over the whole life of a process, whatever was invoked and
    whatever the hosts answered, the cache slot is either still empty with
    [cacheTime] 0, or holds a list in which every review has the five
    fields and a non-empty author name and location. *)
Theorem cache_always_holds_reviews (invs : list (Host * Event)) :
  holds_reviews (serve_all JSON_stringify invs initial).
Proof.
  unfold serve_all.
  assert (holds_reviews initial) as Hinit by (by left).
  revert Hinit. generalize initial.
  induction invs as [| [h event] invs IH]; intros st Hst; simpl; [done |].
  apply IH. by apply handler_holds_reviews.
Qed.

(** X9. What fills the cache is what the cache serves: after a reply 200,
    any invocation but a preflight that comes less than one hour after
    the stamp gets the very same reply, headers and body, without an
    upstream call and without a write. *)
Theorem cached_reply_is_replayed h event st h' event' :
  statusCode (reply (handler JSON_stringify h event st)) = 200 ->
  httpMethod event' <> "OPTIONS" ->
  now_at_check h' - cacheTime (store (handler JSON_stringify h event st))
    < CACHE_TTL_MS ->
  handler JSON_stringify h' event' (store (handler JSON_stringify h event st)) =
    {| reply := reply (handler JSON_stringify h event st);
       store := store (handler JSON_stringify h event st);
       upstream_calls := [] |}.
Proof.
  intros Hcode Hm%String.eqb_neq Hage.
  assert (truthy (cached (store (handler JSON_stringify h event st))) = true
          /\ reply (handler JSON_stringify h event st) =
               respond 200
                 (JSON_stringify (cached (store (handler JSON_stringify h event st)))))
    as [Hthere Hreply].
  { destruct (handler_cases JSON_stringify h event st)
      as [(_ & Hr) | [(_ & Hf & Hr) | [(_ & _ & _ & Hr)
         | [(k & code & msg & _ & _ & _ & _ & Hc & Hr)
         | (k & out & _ & _ & _ & _ & _ & Hr)]]]];
      rewrite Hr in *; simpl in *; try done; try lia.
    split; [| done]. unfold fresh in Hf. by apply andb_true_iff in Hf as [? _]. }
  unfold handler at 1. rewrite Hm. unfold fresh. rewrite Hthere.
  apply Z.ltb_lt in Hage as ->. simpl. by rewrite Hreply.
Qed.

End lifetime.

(** *** The further properties at concrete inputs *)

(** An upstream 503 on a stale entry. *)
Lemma failure_is_not_cached_witness :
  store (handler render (host_at (minutes 61) (Some "secret") unavailable)
           GET warmed) = warmed.
Proof.
  apply (failure_is_not_cached render
           (host_at (minutes 61) (Some "secret") unavailable) GET warmed).
  vm_compute. discriminate.
Defined.

(** The one call of the first invocation. *)
Lemma upstream_call_discipline_witness :
  upstream_calls (handler render (host_at 0 (Some "secret") two_reviews)
                    GET initial) = [upstream_request "secret"].
Proof.
  apply (upstream_call_discipline render
           (host_at 0 (Some "secret") two_reviews) GET initial
           (upstream_request "secret")).
  vm_compute. by left.
Defined.

Lemma normalize_idempotent_witness :
  normalize (host_at 5 None offline) review_bare_stored = inr review_bare_stored.
Proof.
  apply (normalize_idempotent (host_at 0 (Some "secret") two_reviews)
           (host_at 5 None offline) review_bare review_bare_stored).
  reflexivity.
Defined.

(** A null between two good reviews. *)
Lemma null_review_fails_the_refresh_witness :
  exists r0,
    r0 ∈ [review_full; VNull; review_bare] /\ absent r0
    /\ handler render (host_at 0 (Some "secret") one_null_review) GET initial =
         failed render 500
           (v8_message (ReadOfNullish r0 "rating")) "secret" initial.
Proof.
  apply (null_review_fails_the_refresh render
           (host_at 0 (Some "secret") one_null_review) GET initial "secret"
           {| status := 200;
              json := inr (VObj [("reviews",
                                  VArr [review_full; VNull; review_bare])]) |}
           (VObj [("reviews", VArr [review_full; VNull; review_bare])])).
  - discriminate.
  - reflexivity.
  - reflexivity.
  - discriminate.
  - reflexivity.
  - reflexivity.
  - reflexivity.
  - reflexivity.
  - apply Exists_cons. right. apply Exists_cons. left. by right.
Defined.

(** [reviews] as a text. *)
Lemma unexpected_document_witness :
  handler render (host_at 0 (Some "secret") reviews_as_text) GET initial =
    failed render 500 "(data.reviews || []).map is not a function" "secret" initial.
Proof.
  destruct (unexpected_document render
              (host_at 0 (Some "secret") reviews_as_text) GET initial "secret"
              {| status := 200;
                 json := inr (VObj [("reviews", VStr "none yet")]) |}
              (VObj [("reviews", VStr "none yet")]))
    as (_ & Htext & _);
    [discriminate | reflexivity | reflexivity | discriminate
    | reflexivity | reflexivity | reflexivity |].
  apply (Htext (VStr "none yet")); [reflexivity | reflexivity | discriminate].
Defined.

(** An entry that is exactly one hour old. *)
Lemma stale_entry_is_refetched_witness :
  exists apiKey,
    YELP_API_KEY (host_at (minutes 60 + 250) (Some "secret") two_reviews)
    = Some apiKey
    /\ upstream_calls
         (handler render (host_at (minutes 60 + 250) (Some "secret") two_reviews)
            GET warmed) = [upstream_request apiKey]
    /\ cacheTime
         (store (handler render
                   (host_at (minutes 60 + 250) (Some "secret") two_reviews)
                   GET warmed)) = minutes 60 + 250 + 250.
Proof.
  apply (stale_entry_is_refetched render
           (host_at (minutes 60 + 250) (Some "secret") two_reviews) GET warmed).
  - discriminate.
  - vm_compute. discriminate.
  - reflexivity.
Defined.

(** A first refresh, then a GET 59 minutes later without credential. *)
Lemma cached_reply_is_replayed_witness :
  handler render (host_at (minutes 59) None offline) GET
    (store (handler render (host_at 0 (Some "secret") two_reviews) GET initial)) =
    {| reply := reply (handler render (host_at 0 (Some "secret") two_reviews)
                         GET initial);
       store := store (handler render (host_at 0 (Some "secret") two_reviews)
                         GET initial);
       upstream_calls := [] |}.
Proof.
  apply (cached_reply_is_replayed render
           (host_at 0 (Some "secret") two_reviews) GET initial
           (host_at (minutes 59) None offline) GET).
  - reflexivity.
  - discriminate.
  - vm_compute. reflexivity.
Defined.

End ReviewProxyProofs.

(** * Properties of the asset cache worker *)

Module ServiceWorkerProofs.
Import ServiceWorker.
#[local] Open Scope task_scope.
#[local] Open Scope list_scope.

(** *** URLs *)

Lemma prefix_upto_slash n s : String.prefix (upto_slash n s) s = true.
Proof.
  revert n. induction s as [| c s IH]; intros n; simpl; [done |].
  destruct (Ascii.eqb c "/"); [destruct n; [done |] |];
    simpl; by destruct (ascii_dec c c).
Qed.

Lemma prefix_url_origin u : String.prefix (url_origin u) u = true.
Proof. apply prefix_upto_slash. Qed.


Lemma strip_fragment_idem u : strip_fragment (strip_fragment u) = strip_fragment u.
Proof.
  induction u as [| c u IH]; simpl; [done |].
  destruct (Ascii.eqb c "#") eqn:Hc; simpl; [done |]. by rewrite Hc, IH.
Qed.

(** A prefix without [#] stays as it is. *)
Lemma strip_fragment_app s t :
  strip_fragment s = s ->
  strip_fragment (s ++ t)%string = (s ++ strip_fragment t)%string.
Proof.
  induction s as [| c s IH]; simpl; [done |].
  destruct (Ascii.eqb c "#"); [discriminate |].
  intros [= Hs]. by rewrite IH.
Qed.

(** *** The heap of response objects *)

Lemma lookup_fresh {A} (l : list A) (x : A) :
  ((l ++ [x])%list : list A) !! length l = Some x.
Proof. by apply list_lookup_middle. Qed.

Lemma alter_fresh {A} (f : A -> A) (l : list A) (x : A) :
  alter f (length l) (l ++ [x])%list = (l ++ [f x])%list.
Proof. by rewrite alter_app_r_alt, Nat.sub_diag by lia. Qed.

(** *** Matching inside one cache *)

Lemma vary_agrees_self hs d :
  "*" ∉ vary d -> vary_agrees hs {| sent := hs; answer := d |} = true.
Proof.
  intros Hstar. unfold vary_agrees. simpl. apply forallb_forall.
  intros field Hin%list_elem_of_In. apply andb_true_iff. split.
  - apply negb_true_iff, String.eqb_neq. by intros ->.
  - by apply bool_decide_eq_true_2.
Qed.

Lemma vary_agrees_star hs v : "*" ∈ vary (answer v) -> vary_agrees hs v = false.
Proof.
  intros Hin. unfold vary_agrees. apply not_true_iff_false.
  intros Hall. rewrite forallb_forall in Hall.
  apply list_elem_of_In, Hall in Hin. by apply andb_true_iff in Hin as [? _].
Qed.

Lemma first_agreeing_app hs vs1 vs2 :
  first_agreeing hs (vs1 ++ vs2) =
    match first_agreeing hs vs1 with
    | Some d => Some d
    | None => first_agreeing hs vs2
    end.
Proof.
  induction vs1 as [| v vs1 IH]; simpl; [done |].
  by destruct (vary_agrees hs v).
Qed.

Lemma first_agreeing_replaced hs vs :
  first_agreeing hs (filter (fun v => vary_agrees hs v = false) vs) = None.
Proof.
  induction vs as [| v vs IH]; [done |].
  rewrite filter_cons. case_decide as Hv; simpl; [by rewrite Hv |]. done.
Qed.


Lemma cache_lookup_empty q : cache_lookup q ∅ = None.
Proof.
  unfold cache_lookup. rewrite lookup_empty. simpl.
  by destruct (String.eqb (method q) "GET").
Qed.

(** What was put for a request is what a request of the same resource
    finds. *)
Lemma cache_lookup_store q q' d (c : Cache) :
  method q' = "GET" ->
  same_resource q q' ->
  "*" ∉ vary d ->
  cache_lookup q' (cache_store q d c) = Some d.
Proof.
  intros Hm [Hurl Hhs] Hstar. unfold cache_lookup, cache_store.
  rewrite Hm, Hurl, Hhs. simpl. rewrite lookup_insert_eq. simpl.
  rewrite first_agreeing_app, first_agreeing_replaced. simpl.
  by rewrite vary_agrees_self.
Qed.

Lemma cache_lookup_store_ne q q' d (c : Cache) :
  strip_fragment (url q') <> strip_fragment (url q) ->
  cache_lookup q' (cache_store q d c) = cache_lookup q' c.
Proof.
  intros Hne. unfold cache_lookup, cache_store.
  by rewrite lookup_insert_ne.
Qed.

(** *** The cache storage *)

Lemma storage_match_filter q (P : string * Cache -> Prop)
    `{!forall p, Decision (P p)} (cs : CacheStorage) :
  storage_match q cs = None -> storage_match q (filter P cs) = None.
Proof.
  induction cs as [| [n c] cs IH]; simpl; [done |].
  destruct (cache_lookup q c) eqn:Hc; [done |]. intros Hrest.
  rewrite filter_cons. case_decide; simpl; [rewrite Hc |]; by apply IH.
Qed.

Lemma storage_entry_miss name q (cs : CacheStorage) :
  storage_match q cs = None -> storage_entry name q cs = None.
Proof. apply storage_match_filter. Qed.


Lemma storage_keys_put name q d (cs : CacheStorage) :
  storage_keys (storage_put name q d cs) = storage_keys cs.
Proof.
  unfold storage_keys, storage_put.
  induction cs as [| [n c] cs IH]; [done |].
  rewrite !fmap_cons, IH. simpl. by destruct (String.eqb n name).
Qed.

Lemma storage_keys_open name (cs : CacheStorage) :
  storage_keys (storage_open name cs) =
    if bool_decide (name ∈ storage_keys cs) then storage_keys cs
    else storage_keys cs ++ [name].
Proof.
  unfold storage_open. case_bool_decide; [done |].
  unfold storage_keys. by rewrite fmap_app.
Qed.

Lemma storage_open_keys name (cs : CacheStorage) :
  name ∈ storage_keys (storage_open name cs).
Proof.
  rewrite storage_keys_open. case_bool_decide; [done |].
  apply elem_of_app. right. by left.
Qed.

Lemma storage_match_app q (cs1 cs2 : CacheStorage) :
  storage_match q (cs1 ++ cs2) =
    match storage_match q cs1 with
    | Some d => Some d
    | None => storage_match q cs2
    end.
Proof.
  induction cs1 as [| [n c] cs1 IH]; simpl; [done |].
  by destruct (cache_lookup q c).
Qed.

Lemma storage_match_open q name (cs : CacheStorage) :
  storage_match q (storage_open name cs) = storage_match q cs.
Proof.
  unfold storage_open. case_bool_decide; [done |].
  rewrite storage_match_app. simpl. rewrite cache_lookup_empty.
  by destruct (storage_match q cs).
Qed.

Lemma storage_entry_open name q name' (cs : CacheStorage) :
  storage_entry name q (storage_open name' cs) = storage_entry name q cs.
Proof.
  unfold storage_entry, storage_open. case_bool_decide; [done |].
  rewrite filter_app, storage_match_app, filter_cons, filter_nil.
  destruct (storage_match q _); [done |].
  case_decide; simpl; [by rewrite cache_lookup_empty | done].
Qed.

Lemma storage_match_put_ne q' name q d (cs : CacheStorage) :
  strip_fragment (url q') <> strip_fragment (url q) ->
  storage_match q' (storage_put name q d cs) = storage_match q' cs.
Proof.
  intros Hne. unfold storage_put.
  induction cs as [| [n c] cs IH]; [done |].
  rewrite fmap_cons. simpl. destruct (String.eqb n name); simpl;
    rewrite ?cache_lookup_store_ne by done; by rewrite IH.
Qed.

Lemma storage_entry_put_ne name' q' name q d (cs : CacheStorage) :
  strip_fragment (url q') <> strip_fragment (url q) ->
  storage_entry name' q' (storage_put name q d cs) = storage_entry name' q' cs.
Proof.
  intros Hne. unfold storage_entry, storage_put.
  induction cs as [| [n c] cs IH]; [done |].
  rewrite fmap_cons, !filter_cons. simpl.
  destruct (String.eqb n name); simpl; case_decide; simpl;
    rewrite ?cache_lookup_store_ne by done; by rewrite IH.
Qed.

Lemma storage_entry_put_other name' q' name q d (cs : CacheStorage) :
  name' <> name ->
  storage_entry name' q' (storage_put name q d cs) = storage_entry name' q' cs.
Proof.
  intros Hne. unfold storage_entry, storage_put.
  induction cs as [| [n c] cs IH]; [done |].
  rewrite fmap_cons, !filter_cons. simpl.
  destruct (String.eqb n name) eqn:Hn; simpl.
  - apply String.eqb_eq in Hn as ->. by rewrite !decide_False by done.
  - case_decide; simpl; by rewrite IH.
Qed.

(** A resource that no cache had is found, after a put, as it was put. *)
Lemma storage_match_put_miss name q q' d (cs : CacheStorage) :
  storage_match q' cs = None ->
  name ∈ storage_keys cs ->
  method q' = "GET" ->
  same_resource q q' ->
  "*" ∉ vary d ->
  storage_match q' (storage_put name q d cs) = Some d.
Proof.
  intros Hmiss Hin Hm Hsame Hstar. revert Hmiss Hin.
  unfold storage_put, storage_keys.
  induction cs as [| [n c] cs IH]; simpl; [by intros _ ?%elem_of_nil |].
  destruct (cache_lookup q' c) eqn:Hc; [done |]. intros Hrest Hin.
  destruct (String.eqb n name) eqn:Hn; simpl.
  - by rewrite cache_lookup_store.
  - rewrite Hc. apply IH; [done |].
    apply String.eqb_neq in Hn. apply elem_of_cons in Hin as [-> | Hin]; done.
Qed.

Lemma storage_entry_put name q q' d (cs : CacheStorage) :
  name ∈ storage_keys cs ->
  method q' = "GET" ->
  same_resource q q' ->
  "*" ∉ vary d ->
  storage_entry name q' (storage_put name q d cs) = Some d.
Proof.
  intros Hin Hm Hsame Hstar. revert Hin.
  unfold storage_entry, storage_put, storage_keys.
  induction cs as [| [n c] cs IH]; simpl; [by intros ?%elem_of_nil |].
  intros Hin. rewrite filter_cons. simpl.
  destruct (String.eqb n name) eqn:Hn; simpl.
  - apply String.eqb_eq in Hn as ->. rewrite decide_True by done. simpl.
    by rewrite cache_lookup_store.
  - apply String.eqb_neq in Hn. rewrite decide_False by done.
    apply IH. apply elem_of_cons in Hin as [-> | Hin]; done.
Qed.

Lemma filter_name_absent name (cs : CacheStorage) :
  name ∉ storage_keys cs -> filter (fun p => p.1 = name) cs = [].
Proof.
  unfold storage_keys. induction cs as [| [n c] cs IH]; [done |].
  rewrite fmap_cons, not_elem_of_cons. simpl. intros [Hne Hrest].
  rewrite filter_cons_False by (simpl; congruence). by apply IH.
Qed.

Lemma filter_name_unique name (cs : CacheStorage) :
  NoDup (storage_keys cs) -> name ∈ storage_keys cs ->
  storage_keys (filter (fun p => p.1 = name) cs) = [name].
Proof.
  unfold storage_keys. induction cs as [| [n c] cs IH]; [by intros _ ?%elem_of_nil |].
  rewrite fmap_cons. simpl. intros [Hn Hnd]%NoDup_cons Hin.
  destruct (decide (n = name)) as [-> | Hne].
  - rewrite filter_cons_True by done.
    by rewrite (filter_name_absent name cs Hn).
  - rewrite filter_cons_False by done.
    apply IH; [done |]. apply elem_of_cons in Hin as [-> | Hin]; done.
Qed.

Section facts.

Variable origin : string.
Variable network : Request -> option ResponseData.
Variable room : CacheStorage -> list ResponseData -> bool.

Lemma written_lands q d (cs : CacheStorage) :
  lands room cs d ->
  written room q d cs = storage_put CACHE_NAME q d (storage_open CACHE_NAME cs).
Proof.
  intros [Hstar Hroom]. unfold written.
  by rewrite bool_decide_eq_false_2, Hroom.
Qed.

Lemma written_dropped q d (cs : CacheStorage) :
  ~ lands room cs d -> written room q d cs = storage_open CACHE_NAME cs.
Proof.
  intros Hno. unfold written. case_bool_decide as Hstar; [done |].
  destruct (room (storage_open CACHE_NAME cs) [d]) eqn:Hroom; [| done].
  by destruct Hno.
Qed.

Lemma written_keys q d (cs : CacheStorage) :
  storage_keys (written room q d cs) = storage_keys (storage_open CACHE_NAME cs).
Proof.
  unfold written. case_bool_decide; [done |].
  destruct (room _ _); [apply storage_keys_put | done].
Qed.

Lemma clone_unread cs hp lg d :
  clone (length hp) {| caches := cs; heap := hp ++ [unread d]; log := lg |} =
    (Some (S (length hp)),
     {| caches := cs;
        heap := hp ++ [unread d; unread d];
        log := lg ++ [OpClone (length hp) (S (length hp))] |}).
Proof.
  unfold clone, bind, read, alloc, record. simpl. rewrite lookup_fresh. simpl.
  rewrite length_app, <- app_assoc. simpl. by rewrite Nat.add_1_r.
Qed.

(** A put of an unread response with status 200: rejected for [Vary: *]
    before the body is read, for lack of room after. *)
Lemma cache_put_unread name q cs hp lg d :
  method q = "GET" ->
  status d = 200 ->
  cache_put room name q (length hp)
    {| caches := cs; heap := hp ++ [unread d]; log := lg |} =
    (if bool_decide ("*" ∈ vary d) then None
     else if room cs [d] then Some tt else None,
     {| caches := if bool_decide ("*" ∈ vary d) then cs
                  else if room cs [d] then storage_put name q d cs else cs;
        heap := hp ++ [{| data := d;
                          bodyUsed := negb (bool_decide ("*" ∈ vary d)) |}];
        log := lg ++ [OpPut name (url q) (length hp)] |}).
Proof.
  intros Hm Hs.
  unfold cache_put, bind, read, consume, record, set_caches, reject. simpl.
  rewrite lookup_fresh. simpl. rewrite Hm, Hs. simpl.
  case_bool_decide; simpl; [done |]. rewrite alter_fresh. simpl.
  by destruct (room cs [d]).
Qed.

(** *** The three early exits and the pipeline *)

Lemma on_fetch_not_get req w :
  method req <> "GET" -> on_fetch origin network room req w = (PassThrough, w).
Proof. intros Hm%String.eqb_neq. unfold on_fetch. by rewrite Hm. Qed.

Lemma on_fetch_not_prefixed req w :
  String.prefix origin (url req) = false ->
  on_fetch origin network room req w = (PassThrough, w).
Proof. intros Hp. unfold on_fetch. rewrite Hp. by destruct (String.eqb _ _). Qed.

Lemma on_fetch_prefixed req w :
  method req = "GET" ->
  String.prefix origin (url req) = true ->
  on_fetch origin network room req w =
    (RespondWith (respond_task origin network room req w).1,
     (respond_task origin network room req w).2).
Proof.
  intros Hm Hp. unfold on_fetch. rewrite Hm, Hp. simpl.
  by destruct (respond_task origin network room req w).
Qed.

(** The listener leaves a request to the browser exactly when the method
    is not GET or the URL does not begin with the text of the origin. *)
Lemma on_fetch_pass_through req w :
  (on_fetch origin network room req w).1 = PassThrough <->
  method req <> "GET" \/ String.prefix origin (url req) = false.
Proof.
  split.
  - intros Hpass. destruct (decide (method req = "GET")) as [Hm | Hm]; [| by left].
    right. destruct (String.prefix origin (url req)) eqn:Hp; [| done].
    rewrite (on_fetch_prefixed _ _ Hm Hp) in Hpass. discriminate.
  - intros [Hm | Hp].
    + by rewrite on_fetch_not_get.
    + by rewrite on_fetch_not_prefixed.
Qed.

Lemma on_fetch_same_origin req w :
  method req = "GET" ->
  url_origin (url req) = origin ->
  on_fetch origin network room req w =
    (RespondWith (respond_task origin network room req w).1,
     (respond_task origin network room req w).2).
Proof.
  intros Hm Ho. apply on_fetch_prefixed; [done |].
  rewrite <- Ho. apply prefix_url_origin.
Qed.

Lemma respond_hit req w d :
  storage_match req (caches w) = Some d ->
  respond_task origin network room req w =
    (Some (Some (length (heap w))),
     {| caches := caches w;
        heap := heap w ++ [unread d];
        log := log w ++ [OpMatch (url req)] |}).
Proof.
  intros Hhit. unfold respond_task, caches_match, bind, record. simpl.
  by rewrite Hhit.
Qed.

Lemma respond_miss_kept req w d :
  storage_match req (caches w) = None ->
  network req = Some d ->
  ~ cacheable d ->
  respond_task origin network room req w =
    (Some (Some (length (heap w))),
     {| caches := caches w;
        heap := heap w ++ [unread d];
        log := log w ++ [OpMatch (url req); OpFetch req] |}).
Proof.
  intros Hmiss Hnet Hno.
  unfold respond_task, caches_match, catch, fetch, bind, record, read, alloc. simpl.
  rewrite Hmiss, Hnet. simpl. rewrite lookup_fresh. simpl.
  assert (negb (status d =? 200) || negb (String.eqb (type d) "basic") = true) as ->.
  { apply orb_true_iff. unfold cacheable in Hno.
    destruct (Z.eqb_spec (status d) 200) as [Hs | Hs]; [| by left].
    right. apply negb_true_iff, String.eqb_neq. tauto. }
  unfold ServiceWorker.ret. by rewrite <- app_assoc.
Qed.

Lemma respond_miss_put req w d :
  method req = "GET" ->
  storage_match req (caches w) = None ->
  network req = Some d ->
  cacheable d ->
  respond_task origin network room req w =
    (Some (Some (length (heap w))),
     {| caches := written room req d (caches w);
        heap := heap w ++
                  [ unread d;
                    {| data := d;
                       bodyUsed := negb (bool_decide ("*" ∈ vary d)) |} ];
        log := log w ++ [ OpMatch (url req); OpFetch req;
                          OpClone (length (heap w)) (S (length (heap w)));
                          OpOpen CACHE_NAME;
                          OpPut CACHE_NAME (url req) (S (length (heap w))) ] |}).
Proof.
  intros Hm Hmiss Hnet [Hs Ht].
  unfold respond_task, caches_match, catch, fetch, bind, record, read, alloc. simpl.
  rewrite Hmiss, Hnet. simpl. rewrite lookup_fresh. simpl.
  rewrite Hs, Ht. simpl. rewrite clone_unread. simpl.
  pose proof (cache_put_unread CACHE_NAME req
                (storage_open CACHE_NAME (caches w))
                (heap w ++ [unread d])
                ((((log w ++ [OpMatch (url req)]) ++ [OpFetch req]) ++
                  [OpClone (length (heap w)) (S (length (heap w)))]) ++
                 [OpOpen CACHE_NAME]) d Hm Hs) as Hput.
  rewrite length_app, Nat.add_1_r in Hput. simpl in Hput.
  rewrite <- !(app_assoc (heap w)) in Hput. simpl in Hput.
  rewrite Hput. unfold ServiceWorker.ret, written. simpl.
  rewrite <- !app_assoc. simpl. do 2 f_equal.
Qed.

Lemma respond_offline_other req w :
  storage_match req (caches w) = None ->
  network req = None ->
  destination req <> "document" ->
  respond_task origin network room req w =
    (Some None,
     {| caches := caches w; heap := heap w;
        log := log w ++ [OpMatch (url req); OpFetch req] |}).
Proof.
  intros Hmiss Hnet Hd%String.eqb_neq.
  unfold respond_task, caches_match, catch, fetch, bind, record, reject. simpl.
  rewrite Hmiss, Hnet, Hd. simpl. unfold ServiceWorker.ret.
  by rewrite <- app_assoc.
Qed.

Lemma respond_offline_document req w :
  storage_match req (caches w) = None ->
  network req = None ->
  destination req = "document" ->
  respond_task origin network room req w =
    match storage_match (request_of_path origin "/index.html") (caches w) with
    | Some d =>
        (Some (Some (length (heap w))),
         {| caches := caches w; heap := heap w ++ [unread d];
            log := log w ++ [ OpMatch (url req); OpFetch req;
                              OpMatch (resolve origin "/index.html") ] |})
    | None =>
        (Some None,
         {| caches := caches w; heap := heap w;
            log := log w ++ [ OpMatch (url req); OpFetch req;
                              OpMatch (resolve origin "/index.html") ] |})
    end.
Proof.
  intros Hmiss Hnet Hd.
  unfold respond_task, caches_match, catch, fetch, bind, record, reject. simpl.
  rewrite Hmiss, Hnet, Hd. simpl.
  destruct (storage_match _ (caches w)); unfold ServiceWorker.ret, alloc; simpl;
    by rewrite <- !app_assoc.
Qed.

(** *** Activation *)

Lemma filter_agree {A} (P Q : A -> Prop)
    `{!forall x, Decision (P x), !forall x, Decision (Q x)} (l : list A) :
  (forall x, x ∈ l -> P x <-> Q x) -> filter P l = filter Q l.
Proof.
  induction l as [| a l IH]; intros Hpq; [done |].
  rewrite !filter_cons, IH.
  - apply decide_ext, Hpq. by left.
  - intros x Hx. apply Hpq. by right.
Qed.

Lemma for_each_delete_if_old names w :
  exists settled,
    for_each delete_if_old names w =
      (Some settled,
       {| caches := filter (fun p => p.1 = CACHE_NAME \/ p.1 ∉ names) (caches w);
          heap := heap w;
          log := log w ++ (OpDelete <$> filter (fun n => n <> CACHE_NAME) names) |}).
Proof.
  revert w. induction names as [| n names IH]; intros w.
  - exists []. simpl. unfold ServiceWorker.ret. f_equal.
    destruct w as [cs hp lg]. simpl. f_equal.
    + rewrite (filter_agree _ (fun _ => True) cs).
      * clear. induction cs as [| c cs IH]; [done |].
        by rewrite filter_cons_True, <- IH.
      * intros p _. split; [done |]. intros _. right. apply not_elem_of_nil.
    + by rewrite app_nil_r.
  - simpl. unfold bind at 1. unfold delete_if_old at 1.
    destruct (String.eqb n CACHE_NAME) eqn:Hn; simpl.
    + apply String.eqb_eq in Hn as ->.
      destruct (IH w) as [settled Hrun]. exists (None :: settled).
      unfold bind. rewrite Hrun. unfold ServiceWorker.ret. simpl. f_equal. f_equal.
      apply list_filter_iff. intros p. rewrite not_elem_of_cons.
      destruct (decide (p.1 = CACHE_NAME)); tauto.
    + apply String.eqb_neq in Hn.
      unfold caches_delete, bind, record. simpl.
      destruct (IH {| caches := storage_delete n (caches w); heap := heap w;
                      log := log w ++ [OpDelete n] |}) as [settled Hrun].
      eexists (_ :: settled). unfold bind. rewrite Hrun.
      unfold ServiceWorker.ret. simpl. f_equal. f_equal.
      * unfold storage_delete. rewrite list_filter_filter.
        apply list_filter_iff. intros p. rewrite not_elem_of_cons.
        split; [tauto |]. intros [-> | [? ?]]; split; auto.
      * rewrite filter_cons_True by done. rewrite fmap_cons.
        by rewrite <- app_assoc.
Qed.

Lemma on_activate_world w :
  on_activate w =
    (Some tt,
     {| caches := filter (fun p => p.1 = CACHE_NAME) (caches w);
        heap := heap w;
        log := log w ++ OpKeys ::
                 (OpDelete <$> filter (fun n => n <> CACHE_NAME)
                                 (storage_keys (caches w))) |}).
Proof.
  unfold on_activate, caches_keys, bind at 1 2, record. simpl.
  destruct (for_each_delete_if_old (storage_keys (caches w))
              {| caches := caches w; heap := heap w; log := log w ++ [OpKeys] |})
    as [settled Hrun].
  unfold bind. rewrite Hrun. unfold ServiceWorker.ret. simpl. f_equal. f_equal.
  - apply filter_agree. intros p Hp. split; [| by left].
    intros [? | Hnot]; [done |]. destruct Hnot.
    unfold storage_keys. by apply list_elem_of_fmap_2.
  - by rewrite <- app_assoc.
Qed.

(** *** The specified behaviour of the listeners *)

(** C5, as the code and the platform have it.  A same-origin GET that the
    cache storage matches (URLs compared without fragment, [Vary]
    respected) is answered with a new response object carrying the cached
    data, and the network is not asked.  One that it does not match is
    fetched, and the object the network gave is what the page gets,
    unread.  The listener clones the response and puts the clone, before
    it returns the original, exactly when the response has status 200 and
    type [basic]; the put is not waited for, and the current cache
    answers the request with the response afterwards exactly when, in
    addition, the platform takes the copy: no [*] in [Vary], and room in
    the storage. *)
Theorem C5_cache_first req w :
  method req = "GET" ->
  url_origin (url req) = origin ->
  (forall d,
      storage_match req (caches w) = Some d ->
      on_fetch origin network room req w =
        (RespondWith (Some (Some (length (heap w)))),
         {| caches := caches w;
            heap := heap w ++ [unread d];
            log := log w ++ [OpMatch (url req)] |}))
  /\ (forall d,
      storage_match req (caches w) = None ->
      network req = Some d ->
      exists w',
        on_fetch origin network room req w =
          (RespondWith (Some (Some (length (heap w)))), w')
        /\ heap w' !! length (heap w) = Some (unread d)
        /\ (storage_entry CACHE_NAME req (caches w') = Some d <->
            cacheable d /\ lands room (caches w) d)
        /\ (cacheable d ->
            caches w' = written room req d (caches w)
            /\ (exists used,
                  heap w' = heap w ++ [unread d; {| data := d; bodyUsed := used |}])
            /\ log w' = log w ++
                  [ OpMatch (url req); OpFetch req;
                    OpClone (length (heap w)) (S (length (heap w)));
                    OpOpen CACHE_NAME;
                    OpPut CACHE_NAME (url req) (S (length (heap w))) ])
        /\ (~ cacheable d ->
            caches w' = caches w
            /\ heap w' = heap w ++ [unread d]
            /\ log w' = log w ++ [OpMatch (url req); OpFetch req])).
Proof.
  intros Hm Ho. rewrite (on_fetch_same_origin _ _ Hm Ho). split.
  - intros d Hhit. by rewrite (respond_hit _ _ _ Hhit).
  - intros d Hmiss Hnet.
    destruct (decide (status d = 200 /\ type d = "basic")) as [Hc | Hc].
    + rewrite (respond_miss_put _ _ _ Hm Hmiss Hnet Hc). simpl.
      eexists. split; [reflexivity |]. simpl.
      split; [by apply list_lookup_middle |].
      split; [| split; [intros _; split; [done | split; [by eexists | done]]
                       | intros Hno; by destruct Hno]].
      split.
      * intros Hentry. split; [done |].
        destruct (decide (("*" ∉ vary d)
                          /\ room (storage_open CACHE_NAME (caches w)) [d] = true))
          as [Hl | Hl]; [done |].
        rewrite (written_dropped _ _ _ Hl), storage_entry_open in Hentry.
        by rewrite (storage_entry_miss _ _ _ Hmiss) in Hentry.
      * intros [_ Hl]. rewrite (written_lands _ _ _ Hl).
        apply storage_entry_put; [apply storage_open_keys | done | done | apply Hl].
    + rewrite (respond_miss_kept _ _ _ Hmiss Hnet Hc). simpl.
      eexists. split; [reflexivity |]. simpl.
      split; [apply lookup_fresh |].
      split; [| split; [intros Hyes; by destruct Hc | done]].
      split; [| by intros [? _]]. intros Hentry.
      by rewrite (storage_entry_miss _ _ _ Hmiss) in Hentry.
Qed.

(** C6. Activation completes, deletes exactly the caches whose name is not
    the current one, in the order [caches.keys()] gave them, and leaves the
    current cache as it was: of the names there were before, a name is
    gone afterwards exactly when it differs from [CACHE_NAME], and every
    name that can still be enumerated is [CACHE_NAME].  When the current
    cache was there (cache names are unique), it is all that
    [caches.keys()] lists afterwards. *)
Theorem C6_activate_purges w :
  (on_activate w).1 = Some tt
  /\ caches (on_activate w).2 = filter (fun p => p.1 = CACHE_NAME) (caches w)
  /\ log (on_activate w).2 =
       log w ++ OpKeys ::
         (OpDelete <$> filter (fun n => n <> CACHE_NAME) (storage_keys (caches w)))
  /\ (forall name,
        name ∈ storage_keys (caches w) ->
        name ∉ storage_keys (caches (on_activate w).2) <-> name <> CACHE_NAME)
  /\ (forall name,
        name ∈ storage_keys (caches (on_activate w).2) -> name = CACHE_NAME)
  /\ (NoDup (storage_keys (caches w)) ->
      CACHE_NAME ∈ storage_keys (caches w) ->
      storage_keys (caches (on_activate w).2) = [CACHE_NAME]).
Proof.
  rewrite on_activate_world. simpl.
  split; [done |]. split; [done |]. split; [done |].
  split; [| split; [| apply filter_name_unique]]; unfold storage_keys.
  - intros name Hin. split.
    + intros Hgone ->. apply Hgone.
      apply list_elem_of_fmap in Hin as [p [Hname Hp]].
      apply list_elem_of_fmap. exists p. split; [done |].
      by apply list_elem_of_filter.
    + intros Hne [p [-> [Hp _]%list_elem_of_filter]]%list_elem_of_fmap. done.
  - by intros name [p [-> [Hp _]%list_elem_of_filter]]%list_elem_of_fmap.
Qed.

(** C8. A same-origin GET that misses the cache while the network fails:
    a request for a document is answered with the cached [/index.html]
    when the cache has it; a request for a document without a cached
    [/index.html], and every request for something else, ends as a
    network error for the page.  The cache is not written. *)
Theorem C8_offline_fallback req w :
  method req = "GET" ->
  url_origin (url req) = origin ->
  storage_match req (caches w) = None ->
  network req = None ->
  (destination req = "document" ->
   forall d,
     storage_match (request_of_path origin "/index.html") (caches w) = Some d ->
     on_fetch origin network room req w =
       (RespondWith (Some (Some (length (heap w)))),
        {| caches := caches w;
           heap := heap w ++ [unread d];
           log := log w ++ [ OpMatch (url req); OpFetch req;
                             OpMatch (resolve origin "/index.html") ] |}))
  /\ (destination req = "document" ->
      storage_match (request_of_path origin "/index.html") (caches w) = None ->
      delivery (on_fetch origin network room req w).1 = NetworkError
      /\ caches (on_fetch origin network room req w).2 = caches w)
  /\ (destination req <> "document" ->
      delivery (on_fetch origin network room req w).1 = NetworkError
      /\ caches (on_fetch origin network room req w).2 = caches w).
Proof.
  intros Hm Ho Hmiss Hnet. rewrite (on_fetch_same_origin _ _ Hm Ho).
  split; [| split].
  - intros Hd d Hroot.
    by rewrite (respond_offline_document _ _ Hmiss Hnet Hd), Hroot.
  - intros Hd Hroot.
    by rewrite (respond_offline_document _ _ Hmiss Hnet Hd), Hroot.
  - intros Hd. by rewrite (respond_offline_other _ _ Hmiss Hnet Hd).
Qed.

End facts.

(** *** The theorems at concrete inputs *)

(** A deploy that finds the cache of the previous version. *)
Lemma C6_witness :
  storage_keys
    (caches (on_activate
               {| caches := ("ruzanova-fitness-v3", ∅) :: caches installed;
                  heap := []; log := [] |}).2) = [CACHE_NAME].
Proof.
  apply (C6_activate_purges
           {| caches := ("ruzanova-fitness-v3", ∅) :: caches installed;
              heap := []; log := [] |}).
  - vm_compute. apply NoDup_cons. split; [| apply NoDup_singleton].
    apply not_elem_of_cons. split; [discriminate | apply not_elem_of_nil].
  - vm_compute. apply elem_of_cons. right. apply elem_of_cons. by left.
Defined.

(** A stylesheet that is not in the manifest, fetched and stored. *)
Lemma C5_witness :
  exists w',
    on_fetch site online roomy
      (get_request "https://ruzanovafit.com/new.css" "style") installed
    = (RespondWith (Some (Some 0%nat)), w')
    /\ storage_entry CACHE_NAME
         (get_request "https://ruzanovafit.com/new.css" "style") (caches w') =
         Some {| status := 200; type := "basic"; vary := [];
                 content := "content of https://ruzanovafit.com/new.css" |}.
Proof.
  destruct (C5_cache_first site online roomy
              (get_request "https://ruzanovafit.com/new.css" "style") installed)
    as [_ Hmiss]; [reflexivity | reflexivity |].
  destruct (Hmiss {| status := 200; type := "basic"; vary := [];
                     content := "content of https://ruzanovafit.com/new.css" |})
    as (w' & Hrun & _ & Hstored & _); [reflexivity | reflexivity |].
  exists w'. split; [exact Hrun |]. apply Hstored.
  split; [split; reflexivity |]. split; [apply not_elem_of_nil | reflexivity].
Defined.

(** C5 as the specification words it ("stored if and only if status 200
    and type basic") fails on a response that carries [Vary: *]: the
    listener puts its clone, the platform rejects the put, and the cache
    does not have the response afterwards. *)
Lemma C5_counterexample :
  method (get_request "https://ruzanovafit.com/new.css" "style") = "GET"
  /\ url_origin (url (get_request "https://ruzanovafit.com/new.css" "style")) = site
  /\ storage_match (get_request "https://ruzanovafit.com/new.css" "style")
       (caches installed) = None
  /\ varying (get_request "https://ruzanovafit.com/new.css" "style") =
       Some {| status := 200; type := "basic"; vary := ["*"];
               content := "content of https://ruzanovafit.com/new.css" |}
  /\ storage_match (get_request "https://ruzanovafit.com/new.css" "style")
       (caches (on_fetch site varying roomy
                  (get_request "https://ruzanovafit.com/new.css" "style")
                  installed).2) = None.
Proof.
  split; [reflexivity |]. split; [reflexivity |]. split; [reflexivity |].
  split; reflexivity.
Qed.

(** C7 fails on the code: the listener tells external requests by
    [url.startsWith(origin)], so a request to another origin whose URL
    begins with the text of the site's origin is not passed through.  Here
    the worker answers it through [respondWith], after looking it up in the
    cache and fetching it itself. *)
Theorem C7_lookalike_origin_is_intercepted :
  method lookalike = "GET"
  /\ url_origin (url lookalike) = "https://ruzanovafit.com.cdn.example"
  /\ url_origin (url lookalike) <> site
  /\ on_fetch site online roomy lookalike installed =
       (RespondWith (Some (Some 0%nat)),
        {| caches := caches installed;
           heap := [unread {| status := 200; type := "cors"; vary := [];
                              content := ("content of " ++ url lookalike)%string |}];
           log := log installed ++ [OpMatch (url lookalike); OpFetch lookalike] |})
  /\ (on_fetch site online roomy lookalike installed).1 <> PassThrough.
Proof.
  split; [reflexivity |].
  split; [vm_compute; reflexivity |].
  split; [vm_compute; discriminate |].
  split; [vm_compute; reflexivity | vm_compute; discriminate].
Qed.

(** Offline navigation to a page that was never cached. *)
Lemma C8_witness :
  on_fetch site offline roomy
    (get_request "https://ruzanovafit.com/about" "document") installed =
    (RespondWith (Some (Some 0%nat)),
     {| caches := caches installed;
        heap := [unread {| status := 200; type := "basic"; vary := [];
                           content := "content of https://ruzanovafit.com/index.html" |}];
        log := log installed ++
                 [ OpMatch "https://ruzanovafit.com/about";
                   OpFetch (get_request "https://ruzanovafit.com/about" "document");
                   OpMatch "https://ruzanovafit.com/index.html" ] |}).
Proof.
  destruct (C8_offline_fallback site offline roomy
              (get_request "https://ruzanovafit.com/about" "document") installed)
    as [Hroot _]; [reflexivity | reflexivity | reflexivity | reflexivity |].
  apply (Hroot eq_refl
           {| status := 200; type := "basic"; vary := [];
              content := "content of https://ruzanovafit.com/index.html" |}).
  reflexivity.
Defined.

(** ** Further properties of the worker *)


Lemma put_all_keys name (ds : list (Request * ResponseData)) (cs : CacheStorage) :
  storage_keys (foldl (fun cs kd => storage_put name kd.1 kd.2 cs) cs ds)
  = storage_keys cs.
Proof.
  revert cs. induction ds as [| [k d] ds IH]; intros cs; simpl; [done |].
  by rewrite IH, storage_keys_put.
Qed.

Lemma put_all_entry_other name (ds : list (Request * ResponseData)) q name'
    (cs : CacheStorage) :
  name' <> name ->
  storage_entry name' q (foldl (fun cs kd => storage_put name kd.1 kd.2 cs) cs ds)
  = storage_entry name' q cs.
Proof.
  intros Hne. revert cs. induction ds as [| [k d] ds IH]; intros cs; simpl; [done |].
  by rewrite IH, storage_entry_put_other.
Qed.

Lemma put_all_entry_ne name (ds : list (Request * ResponseData)) q name'
    (cs : CacheStorage) :
  strip_fragment (url q) ∉ (fun kd => strip_fragment (url kd.1)) <$> ds ->
  storage_entry name' q (foldl (fun cs kd => storage_put name kd.1 kd.2 cs) cs ds)
  = storage_entry name' q cs.
Proof.
  revert cs. induction ds as [| [k d] ds IH]; intros cs; simpl; [done |].
  intros [Hne Hrest]%not_elem_of_cons.
  by rewrite IH, storage_entry_put_ne.
Qed.

(** After a batch of puts for distinct URLs, a request of the resource
    one of them was for finds what was put for it. *)
Lemma put_all_entry name (ds : list (Request * ResponseData)) q q' d
    (cs : CacheStorage) :
  NoDup ((fun kd => strip_fragment (url kd.1)) <$> ds) ->
  (q, d) ∈ ds ->
  name ∈ storage_keys cs ->
  method q' = "GET" ->
  same_resource q q' ->
  "*" ∉ vary d ->
  storage_entry name q' (foldl (fun cs kd => storage_put name kd.1 kd.2 cs) cs ds)
  = Some d.
Proof.
  intros Hnd Hin Hname Hm Hsame Hstar. revert cs Hnd Hin Hname.
  induction ds as [| [k d'] ds IH]; intros cs; simpl;
    [by intros _ ?%elem_of_nil |].
  intros [Hk Hnd]%NoDup_cons [[= <- <-] | Hin]%elem_of_cons Hname.
  - rewrite put_all_entry_ne by (by destruct Hsame as [-> _]).
    by apply storage_entry_put.
  - apply IH; [done | done |]. by rewrite storage_keys_put.
Qed.


Lemma static_assets_distinct origin :
  strip_fragment origin = origin ->
  NoDup ((fun p => strip_fragment (resolve origin p)) <$> STATIC_ASSETS).
Proof.
  intros Ho.
  assert (forall p, p ∈ STATIC_ASSETS -> strip_fragment p = p) as Hplain.
  { apply Forall_forall. vm_compute. repeat constructor. }
  assert (NoDup STATIC_ASSETS) as Hnd.
  { apply (bool_decide_unpack _). vm_compute. done. }
  revert Hplain Hnd. generalize STATIC_ASSETS. intros paths Hplain Hnd.
  apply NoDup_fmap_2_strong; [| done].
  intros p1 p2 Hp1 Hp2. unfold resolve.
  rewrite !strip_fragment_app, (Hplain p1), (Hplain p2) by done.
  apply (inj (String.app origin)).
Qed.

Section more.

Variable origin : string.
Variable network : Request -> option ResponseData.
Variable room : CacheStorage -> list ResponseData -> bool.

Lemma written_match_ne q q' d (cs : CacheStorage) :
  strip_fragment (url q') <> strip_fragment (url q) ->
  storage_match q' (written room q d cs) = storage_match q' cs.
Proof.
  intros Hne. unfold written. case_bool_decide; [apply storage_match_open |].
  destruct (room _ _); rewrite ?storage_match_put_ne by done;
    apply storage_match_open.
Qed.

Lemma written_entry_ne name q q' d (cs : CacheStorage) :
  strip_fragment (url q') <> strip_fragment (url q) ->
  storage_entry name q' (written room q d cs) = storage_entry name q' cs.
Proof.
  intros Hne. unfold written. case_bool_decide; [apply storage_entry_open |].
  destruct (room _ _); rewrite ?storage_entry_put_ne by done;
    apply storage_entry_open.
Qed.

Lemma written_entry_other name q q' d (cs : CacheStorage) :
  name <> CACHE_NAME ->
  storage_entry name q' (written room q d cs) = storage_entry name q' cs.
Proof.
  intros Hne. unfold written. case_bool_decide; [apply storage_entry_open |].
  destruct (room _ _); rewrite ?storage_entry_put_other by done;
    apply storage_entry_open.
Qed.

(** The five ways the promise given to [respondWith] settles. *)
Lemma respond_task_cases req w :
  method req = "GET" ->
  (exists d,
      storage_match req (caches w) = Some d
      /\ respond_task origin network room req w =
           (Some (Some (length (heap w))),
            {| caches := caches w; heap := heap w ++ [unread d];
               log := log w ++ [OpMatch (url req)] |}))
  \/ (exists d,
      storage_match req (caches w) = None
      /\ network req = Some d /\ cacheable d
      /\ respond_task origin network room req w =
           (Some (Some (length (heap w))),
            {| caches := written room req d (caches w);
               heap := heap w ++
                         [ unread d;
                           {| data := d;
                              bodyUsed := negb (bool_decide ("*" ∈ vary d)) |} ];
               log := log w ++
                        [ OpMatch (url req); OpFetch req;
                          OpClone (length (heap w)) (S (length (heap w)));
                          OpOpen CACHE_NAME;
                          OpPut CACHE_NAME (url req) (S (length (heap w))) ] |}))
  \/ (exists d,
      storage_match req (caches w) = None
      /\ network req = Some d /\ ~ cacheable d
      /\ respond_task origin network room req w =
           (Some (Some (length (heap w))),
            {| caches := caches w; heap := heap w ++ [unread d];
               log := log w ++ [OpMatch (url req); OpFetch req] |}))
  \/ (exists d,
      storage_match req (caches w) = None
      /\ network req = None /\ destination req = "document"
      /\ storage_match (request_of_path origin "/index.html") (caches w) = Some d
      /\ respond_task origin network room req w =
           (Some (Some (length (heap w))),
            {| caches := caches w; heap := heap w ++ [unread d];
               log := log w ++ [ OpMatch (url req); OpFetch req;
                                 OpMatch (resolve origin "/index.html") ] |}))
  \/ (exists tried,
      storage_match req (caches w) = None
      /\ network req = None
      /\ respond_task origin network room req w =
           (Some None,
            {| caches := caches w; heap := heap w;
               log := log w ++ OpMatch (url req) :: OpFetch req :: tried |})).
Proof.
  intros Hm.
  destruct (storage_match req (caches w)) as [d |] eqn:Hmatch.
  { left. exists d. split; [done |]. by apply respond_hit. }
  right. destruct (network req) as [d |] eqn:Hnet.
  - destruct (decide (status d = 200 /\ type d = "basic")) as [Hc | Hc].
    + left. exists d. repeat split; try done; try apply Hc.
      by apply respond_miss_put.
    + right. left. exists d. repeat split; try done.
      by apply respond_miss_kept.
  - right. right.
    destruct (decide (destination req = "document")) as [Hd | Hd].
    + rewrite (respond_offline_document _ _ _ _ _ Hmatch Hnet Hd).
      destruct (storage_match (request_of_path origin "/index.html") (caches w))
        as [d |].
      * left. by exists d.
      * right. by eexists.
    + right. eexists. repeat split; try done.
      by apply respond_offline_other.
Qed.

Lemma on_fetch_result req w :
  on_fetch origin network room req w = (PassThrough, w)
  \/ (method req = "GET"
      /\ on_fetch origin network room req w =
           (RespondWith (respond_task origin network room req w).1,
            (respond_task origin network room req w).2)).
Proof.
  destruct (decide (method req = "GET")) as [Hm | Hm];
    [| left; by apply on_fetch_not_get].
  destruct (String.prefix origin (url req)) eqn:Hp;
    [right; split; [done | by apply on_fetch_prefixed]
    | left; by apply on_fetch_not_prefixed].
Qed.

(** The listener writes the cache in one way only. *)
Lemma on_fetch_caches req w :
  caches (on_fetch origin network room req w).2 = caches w
  \/ exists d,
       caches (on_fetch origin network room req w).2 =
         written room req d (caches w).
Proof.
  destruct (on_fetch_result req w) as [-> | [Hm ->]]; [by left |]. simpl.
  destruct (respond_task_cases req w Hm)
    as [(d & _ & ->) | [(d & _ & _ & _ & ->) | [(d & _ & _ & _ & ->)
       | [(d & _ & _ & _ & _ & ->) | (tried & _ & _ & ->)]]]]; simpl;
    try (by left). right. by exists d.
Qed.

(** X10. The listener leaves a request to the browser exactly when its
    method is not GET or its URL does not begin with the text of the
    worker's origin; it then has made no call on the platform and changed
    nothing. *)
Theorem skipped_requests_are_untouched req w :
  ((on_fetch origin network room req w).1 = PassThrough <->
   method req <> "GET" \/ String.prefix origin (url req) = false)
  /\ ((on_fetch origin network room req w).1 = PassThrough ->
      (on_fetch origin network room req w).2 = w).
Proof.
  split; [apply on_fetch_pass_through |].
  intros [Hm | Hp]%on_fetch_pass_through.
  - by rewrite on_fetch_not_get.
  - by rewrite on_fetch_not_prefixed.
Qed.

(** X11. What the listener stores it serves: after a miss answered by the
    network with a cacheable response that the platform takes, the next
    GET for the same resource (the same URL up to its fragment, the same
    headers) is a hit that carries the same data and does not ask the
    network; after a response that was not cacheable, or that the
    platform did not take, the request is still a miss. *)
Theorem stored_response_is_served req w d :
  method req = "GET" ->
  String.prefix origin (url req) = true ->
  storage_match req (caches w) = None ->
  network req = Some d ->
  (cacheable d ->
   lands room (caches w) d ->
   forall network' room' req',
     method req' = "GET" ->
     String.prefix origin (url req') = true ->
     same_resource req req' ->
     exists w',
       on_fetch origin network' room' req' (on_fetch origin network room req w).2 =
         (RespondWith (Some (Some (S (S (length (heap w)))))), w')
       /\ heap w' !! S (S (length (heap w))) = Some (unread d)
       /\ caches w' = caches (on_fetch origin network room req w).2
       /\ log w' = log (on_fetch origin network room req w).2 ++ [OpMatch (url req')])
  /\ (~ (cacheable d /\ lands room (caches w) d) ->
      storage_match req (caches (on_fetch origin network room req w).2) = None).
Proof.
  intros Hm Hp Hmiss Hnet. rewrite (on_fetch_prefixed _ _ _ _ _ Hm Hp). split.
  - intros Hc Hl network' room' req' Hm' Hp' Hsame.
    rewrite (respond_miss_put _ _ _ _ _ _ Hm Hmiss Hnet Hc). simpl.
    rewrite on_fetch_prefixed by done.
    assert (storage_match req' (written room req d (caches w)) = Some d) as Hhit.
    { rewrite (written_lands _ _ _ _ Hl). apply storage_match_put_miss.
      - rewrite storage_match_open. revert Hmiss. clear -Hm Hm' Hsame.
        destruct Hsame as [Hurl Hhs].
        induction (caches w) as [| [n c] cs IH]; simpl; [done |].
        unfold cache_lookup. rewrite Hm, Hm', Hurl, Hhs.
        destruct (first_agreeing _ _); [done | apply IH].
      - apply storage_open_keys.
      - done.
      - done.
      - apply Hl. }
    match goal with
    | |- context [respond_task _ _ _ _ ?w0] =>
        rewrite (respond_hit _ _ _ _ w0 d Hhit)
    end. simpl.
    eexists. split; [rewrite length_app; simpl; by rewrite Nat.add_comm |].
    simpl. split; [| done].
    apply list_lookup_middle. rewrite length_app. simpl. lia.
  - intros Hno.
    destruct (decide (status d = 200 /\ type d = "basic")) as [Hc | Hc].
    + rewrite (respond_miss_put _ _ _ _ _ _ Hm Hmiss Hnet Hc). simpl.
      rewrite written_dropped by (intros Hl; by apply Hno). by rewrite storage_match_open.
    + by rewrite (respond_miss_kept _ _ _ _ _ _ Hmiss Hnet Hc).
Qed.

(** X12. Handling a request never deletes a cache and never changes what
    the storage answers to a request for another resource (another URL,
    fragments apart), in any cache. *)
Theorem other_entries_are_kept req w :
  (forall name,
      name ∈ storage_keys (caches w) ->
      name ∈ storage_keys (caches (on_fetch origin network room req w).2))
  /\ (forall q,
        strip_fragment (url q) <> strip_fragment (url req) ->
        storage_match q (caches (on_fetch origin network room req w).2) =
          storage_match q (caches w)
        /\ forall name,
             storage_entry name q (caches (on_fetch origin network room req w).2) =
               storage_entry name q (caches w)).
Proof.
  destruct (on_fetch_caches req w) as [-> | [d ->]]; [done |]. split.
  - intros name Hin. rewrite written_keys, storage_keys_open.
    case_bool_decide; [done |]. apply elem_of_app. by left.
  - intros q Hne. split.
    + by apply written_match_ne.
    + intros name. by apply written_entry_ne.
Qed.

(** X13. The response the page receives is always a new object whose body
    nobody has read, and no response object that existed before the
    request is touched. *)
Theorem delivered_response_is_unread req w r :
  delivery (on_fetch origin network room req w).1 = Delivered r ->
  r = length (heap w)
  /\ (exists d, heap (on_fetch origin network room req w).2 !! r = Some (unread d))
  /\ (forall (i : nat) o,
        heap w !! i = Some o ->
        heap (on_fetch origin network room req w).2 !! i = Some o).
Proof.
  destruct (on_fetch_result req w) as [-> | [Hm ->]]; [done |]. simpl.
  destruct (respond_task_cases req w Hm)
    as [(d & _ & ->) | [(d & _ & _ & _ & ->) | [(d & _ & _ & _ & ->)
       | [(d & _ & _ & _ & _ & ->) | (tried & _ & _ & ->)]]]]; simpl;
    try done; intros [= <-]; (split; [done |]);
    (split; [exists d; by apply list_lookup_middle
            | intros i o Hi; by apply lookup_app_l_Some]).
Qed.

(** *** Installation *)

Lemma unserved_unaccepted paths :
  Exists (fun p => ~ served origin network p) paths ->
  Exists (fun p => ~ accepted origin network p) paths.
Proof.
  intros Hex. eapply Exists_impl; [exact Hex |]. simpl.
  intros p Hno (d & Hnet & Hok). apply Hno. exists d.
  split; [done |]. unfold acceptable in Hok.
  apply andb_true_iff in Hok as [Hok _]. apply andb_true_iff in Hok as [Hok _].
  apply andb_true_iff in Hok as [Hlo%Z.leb_le Hhi%Z.leb_le]. done.
Qed.

Lemma fetch_all_fails paths :
  Exists (fun p => ~ accepted origin network p) paths ->
  fetch_all origin network paths = None.
Proof.
  induction paths as [| p paths IH]; intros Hex; [by apply Exists_nil in Hex |].
  simpl. destruct (network (request_of_path origin p)) as [d |] eqn:Hnet; [| done].
  destruct (acceptable d) eqn:Hok; [| done].
  apply Exists_cons in Hex as [Hbad | Hex].
  - destruct Hbad. by exists d.
  - by rewrite IH.
Qed.

Lemma fetch_all_succeeds paths :
  Forall (accepted origin network) paths ->
  exists ds,
    fetch_all origin network paths = Some ds
    /\ ds.*1 = request_of_path origin <$> paths
    /\ ds.*2 = answers origin network paths
    /\ forall p, p ∈ paths ->
         exists d, network (request_of_path origin p) = Some d
                   /\ (request_of_path origin p, d) ∈ ds
                   /\ "*" ∉ vary d.
Proof.
  induction 1 as [| p paths (d & Hnet & Hok) _ (ds & Hds & Hreqs & Hans & Hall)].
  - exists []. repeat split. by intros p ?%elem_of_nil.
  - exists ((request_of_path origin p, d) :: ds). simpl. rewrite Hnet, Hok, Hds.
    split; [done |]. split; [f_equal; exact Hreqs |].
    split; [f_equal; exact Hans |].
    intros q [-> | Hq]%elem_of_cons.
    + exists d. split; [done |]. split; [by left |].
      unfold acceptable in Hok. apply andb_true_iff in Hok as [_ Hstar].
      apply negb_true_iff in Hstar. by apply bool_decide_eq_false in Hstar.
    + destruct (Hall q Hq) as (dq & ? & ? & ?). exists dq.
      split; [done |]. split; [by right | done].
Qed.

Lemma fetch_all_answers paths ds :
  fetch_all origin network paths = Some ds ->
  ds.*2 = answers origin network paths.
Proof.
  revert ds. induction paths as [| p paths IH]; intros ds; simpl;
    [by intros [= <-] |].
  unfold answers. simpl.
  destruct (network (request_of_path origin p)) as [d |]; [| done].
  destruct (acceptable d); [| done].
  destruct (fetch_all origin network paths) as [ds' |]; [| done].
  intros [= <-]. simpl. f_equal. by apply IH.
Qed.

Lemma on_install_world w :
  on_install origin network room w =
    (Some tt,
     {| caches :=
          match fetch_all origin network STATIC_ASSETS with
          | Some ds =>
              if bool_decide (NoDup ((fun kd => strip_fragment (url kd.1)) <$> ds))
                 && room (storage_open CACHE_NAME (caches w)) ds.*2
              then foldl (fun cs kd => storage_put CACHE_NAME kd.1 kd.2 cs)
                     (storage_open CACHE_NAME (caches w)) ds
              else storage_open CACHE_NAME (caches w)
          | None => storage_open CACHE_NAME (caches w)
          end;
        heap := heap w;
        log := log w ++ [OpOpen CACHE_NAME; OpAddAll CACHE_NAME STATIC_ASSETS] |}).
Proof.
  unfold on_install, cache_addAll. generalize STATIC_ASSETS. intros paths.
  unfold catch, caches_open, bind, record, set_caches, reject. simpl.
  destruct (fetch_all origin network paths) as [ds |]; simpl;
    [destruct (bool_decide _ && room _ _); simpl |];
    unfold ServiceWorker.ret; by rewrite <- app_assoc.
Qed.

(** Installing opens the current cache and, at most, puts into it. *)
Lemma on_install_caches w :
  caches (on_install origin network room w).2 = storage_open CACHE_NAME (caches w)
  \/ exists ds,
       caches (on_install origin network room w).2 =
         foldl (fun cs kd => storage_put CACHE_NAME kd.1 kd.2 cs)
           (storage_open CACHE_NAME (caches w)) ds.
Proof.
  rewrite on_install_world. cbn [snd caches].
  destruct (fetch_all origin network STATIC_ASSETS) as [ds |]; [| by left].
  destruct (bool_decide _ && room _ _); [right; by exists ds | by left].
Qed.

(** The world after an installation that went through. *)
Lemma on_install_success w :
  Forall (accepted origin network) STATIC_ASSETS ->
  strip_fragment origin = origin ->
  room (storage_open CACHE_NAME (caches w))
    (answers origin network STATIC_ASSETS) = true ->
  exists ds,
    caches (on_install origin network room w).2 =
      foldl (fun cs kd => storage_put CACHE_NAME kd.1 kd.2 cs)
        (storage_open CACHE_NAME (caches w)) ds
    /\ NoDup ((fun kd => strip_fragment (url kd.1)) <$> ds)
    /\ forall p, p ∈ STATIC_ASSETS ->
         exists d, network (request_of_path origin p) = Some d
                   /\ (request_of_path origin p, d) ∈ ds
                   /\ "*" ∉ vary d.
Proof.
  intros Hall Ho Hroom.
  destruct (fetch_all_succeeds _ Hall) as (ds & Hfetched & Hreqs & Hans & Hds).
  assert (NoDup ((fun kd => strip_fragment (url kd.1)) <$> ds)) as Hnd.
  { replace ((fun kd => strip_fragment (url kd.1)) <$> ds)
      with ((fun q => strip_fragment (url q)) <$> ds.*1)
      by (by rewrite <- list_fmap_compose).
    rewrite Hreqs, <- list_fmap_compose. by apply static_assets_distinct. }
  exists ds. split; [| done].
  rewrite on_install_world, Hfetched. cbn [snd caches].
  by rewrite (bool_decide_eq_true_2 _ Hnd), Hans, Hroom.
Qed.

(** X14. Installation is all or nothing and never rejects: when the
    network fails to answer one asset of the manifest with a 2xx status,
    the listener still completes, the current cache exists, and the
    storage holds exactly what it held before, for every URL and in every
    cache; nothing of what did load is kept. *)
Theorem failed_install_stores_nothing w :
  Exists (fun p => ~ served origin network p) STATIC_ASSETS ->
  (on_install origin network room w).1 = Some tt
  /\ CACHE_NAME ∈ storage_keys (caches (on_install origin network room w).2)
  /\ forall key,
       storage_match key (caches (on_install origin network room w).2) =
         storage_match key (caches w)
       /\ forall name,
            storage_entry name key (caches (on_install origin network room w).2) =
              storage_entry name key (caches w).
Proof.
  intros Hbad%unserved_unaccepted.
  rewrite on_install_world, (fetch_all_fails _ Hbad). simpl.
  split; [done |]. split; [apply storage_open_keys |].
  intros key. split; [apply storage_match_open |].
  intros name. apply storage_entry_open.
Qed.

(** X15. When the network answers every asset of the manifest with a
    response that [cache.addAll] takes (2xx but not 206, no [*] in
    [Vary]) and the storage has room for them, installation completes and
    the current cache answers the request for each asset with the
    response the network gave for it. *)
Theorem installed_assets_are_cached w :
  Forall (accepted origin network) STATIC_ASSETS ->
  strip_fragment origin = origin ->
  room (storage_open CACHE_NAME (caches w))
    (answers origin network STATIC_ASSETS) = true ->
  (on_install origin network room w).1 = Some tt
  /\ forall p,
       p ∈ STATIC_ASSETS ->
       is_Some (network (request_of_path origin p))
       /\ storage_entry CACHE_NAME (request_of_path origin p)
            (caches (on_install origin network room w).2) =
          network (request_of_path origin p).
Proof.
  intros Hall Ho Hroom. split; [by rewrite on_install_world |].
  intros p Hp.
  destruct (on_install_success w Hall Ho Hroom) as (ds & -> & Hnd & Hds).
  destruct (Hds p Hp) as (d & Hnet & Hin & Hstar). rewrite Hnet.
  split; [by eexists |].
  by eapply put_all_entry; [done | exact Hin | apply storage_open_keys | ..].
Qed.


(** X17. Activation retires what older caches hold: afterwards the
    storage answers a request exactly as the current cache did, so a GET
    that only an older cache could answer goes to the network and the
    page gets the network's response. *)
Theorem activation_retires_old_entries w :
  (forall q,
      storage_match q (caches (on_activate w).2) =
        storage_entry CACHE_NAME q (caches w))
  /\ (forall req d,
        method req = "GET" ->
        String.prefix origin (url req) = true ->
        storage_entry CACHE_NAME req (caches w) = None ->
        network req = Some d ->
        (on_fetch origin network room req (on_activate w).2).1 =
          RespondWith (Some (Some (length (heap w))))
        /\ heap (on_fetch origin network room req (on_activate w).2).2
             !! length (heap w) = Some (unread d)
        /\ OpFetch req ∈ log (on_fetch origin network room req (on_activate w).2).2).
Proof.
  rewrite on_activate_world. cbn [snd caches]. split; [done |].
  intros req d Hm Hp Hmiss Hnet. rewrite on_fetch_prefixed by done.
  destruct (decide (status d = 200 /\ type d = "basic")) as [Hc | Hc].
  - match goal with
    | |- context [respond_task _ _ _ _ ?w0] =>
        rewrite (respond_miss_put _ _ _ _ w0 d Hm Hmiss Hnet Hc)
    end. simpl. split; [done |]. split; [by apply list_lookup_middle |].
    apply elem_of_app. right. apply elem_of_cons. right. apply elem_of_cons. by left.
  - match goal with
    | |- context [respond_task _ _ _ _ ?w0] =>
        rewrite (respond_miss_kept _ _ _ _ w0 d Hmiss Hnet Hc)
    end. simpl. split; [done |]. split; [by apply list_lookup_middle |].
    apply elem_of_app. right. apply elem_of_cons. right. apply elem_of_cons. by left.
Qed.

Lemma opened_current_only (cs : CacheStorage) :
  current_only cs ->
  storage_keys (storage_open CACHE_NAME cs) = [CACHE_NAME].
Proof.
  rewrite storage_keys_open.
  intros [Hk | Hk]; rewrite Hk; case_bool_decide as Hin; try done.
  - by apply elem_of_nil in Hin.
  - destruct Hin. by left.
Qed.

Lemma dispatch_current_only e w :
  current_only (caches w) ->
  current_only (caches (dispatch origin network room e w)).
Proof.
  intros Hcur. destruct e as [| | req]; unfold dispatch.
  - right. destruct (on_install_caches w) as [-> | [ds ->]];
      rewrite ?put_all_keys; by apply opened_current_only.
  - rewrite on_activate_world. cbn [snd caches].
    destruct Hcur as [Hk | Hk].
    + left. apply fmap_nil_inv in Hk. by rewrite Hk.
    + right. apply filter_name_unique; rewrite Hk;
        [apply NoDup_singleton | by left].
  - destruct (on_fetch_caches req w) as [-> | [d ->]]; [done |].
    right. rewrite written_keys. by apply opened_current_only.
Qed.


(** X18. The worker writes the cache of the current version only:
    neither installing nor handling a request changes an entry of a cache
    with another name, and neither removes such a cache; what an older
    version cached stays as it is until activation. *)
Theorem other_caches_are_not_written name key w :
  name <> CACHE_NAME ->
  (storage_entry name key (caches (on_install origin network room w).2) =
     storage_entry name key (caches w)
   /\ (name ∈ storage_keys (caches w) ->
       name ∈ storage_keys (caches (on_install origin network room w).2)))
  /\ (forall req,
        storage_entry name key (caches (on_fetch origin network room req w).2) =
          storage_entry name key (caches w)).
Proof.
  intros Hne. split; [split |].
  - destruct (on_install_caches w) as [-> | [ds ->]];
      rewrite ?put_all_entry_other by done; apply storage_entry_open.
  - intros Hin.
    destruct (on_install_caches w) as [-> | [ds ->]];
      rewrite ?put_all_keys, storage_keys_open;
      case_bool_decide; try done; apply elem_of_app; by left.
  - intros req. destruct (on_fetch_caches req w) as [-> | [d ->]]; [done |].
    by apply written_entry_other.
Qed.

(** X20. Installation stores nothing either when the platform refuses
    the batch: one response that [cache.addAll] does not take (a failed
    fetch, a status outside 2xx, a 206, a [*] in [Vary]) or a storage
    without room for the responses leaves every lookup as it was, and the
    listener still completes. *)
Theorem refused_install_stores_nothing w :
  Exists (fun p => ~ accepted origin network p) STATIC_ASSETS
  \/ room (storage_open CACHE_NAME (caches w))
       (answers origin network STATIC_ASSETS) = false ->
  (on_install origin network room w).1 = Some tt
  /\ forall q,
       storage_match q (caches (on_install origin network room w).2) =
         storage_match q (caches w)
       /\ forall name,
            storage_entry name q (caches (on_install origin network room w).2) =
              storage_entry name q (caches w).
Proof.
  intros Hrefused. rewrite on_install_world. cbn [fst snd caches].
  split; [done |].
  assert (match fetch_all origin network STATIC_ASSETS with
          | Some ds =>
              if bool_decide (NoDup ((fun kd => strip_fragment (url kd.1)) <$> ds))
                 && room (storage_open CACHE_NAME (caches w)) ds.*2
              then foldl (fun cs kd => storage_put CACHE_NAME kd.1 kd.2 cs)
                     (storage_open CACHE_NAME (caches w)) ds
              else storage_open CACHE_NAME (caches w)
          | None => storage_open CACHE_NAME (caches w)
          end = storage_open CACHE_NAME (caches w)) as ->.
  { destruct Hrefused as [Hbad | Hfull]; [by rewrite (fetch_all_fails _ Hbad) |].
    destruct (fetch_all origin network STATIC_ASSETS) as [ds |] eqn:Hfetched;
      [| done].
    by rewrite (fetch_all_answers _ _ Hfetched), Hfull, andb_false_r. }
  intros q. split; [apply storage_match_open |].
  intros name. apply storage_entry_open.
Qed.

End more.

(** X19. Once the worker has been activated, only the cache of the
    current version exists, whatever events follow under whatever
    networks and storage room: installs, further activations and requests never bring
    another cache into being. *)
Theorem only_current_cache_after_activation origin
    (script : list ((Request -> option ResponseData)
                    * (CacheStorage -> list ResponseData -> bool)
                    * Incoming)) w :
  NoDup (storage_keys (caches w)) ->
  current_only (caches (run origin script (on_activate w).2)).
Proof.
  intros Hnd.
  assert (current_only (caches (on_activate w).2)) as Hcur.
  { rewrite on_activate_world. cbn [snd caches].
    destruct (decide (CACHE_NAME ∈ storage_keys (caches w))) as [Hin | Hout].
    - right. by apply filter_name_unique.
    - left. by rewrite filter_name_absent. }
  revert Hcur. generalize (on_activate w).2. clear w Hnd. unfold run.
  induction script as [| [[network room] e] script IH]; intros w Hcur; simpl;
    [done |].
  apply IH. by apply dispatch_current_only.
Qed.


(** *** The further properties at concrete inputs *)

Lemma online_serves_manifest : Forall (accepted site online) STATIC_ASSETS.
Proof.
  apply Forall_forall. intros p _. eexists. split; reflexivity.
Qed.

Lemma one_missing_fails :
  Exists (fun p => ~ served site one_missing p) STATIC_ASSETS.
Proof.
  apply Exists_exists. exists "/favicon.svg". split.
  - apply (bool_decide_unpack _). vm_compute. done.
  - intros (d & Hnet & _ & Hhi). vm_compute in Hnet.
    injection Hnet as <-. simpl in Hhi. lia.
Qed.

Lemma partial_is_refused :
  Exists (fun p => ~ accepted site partial p) STATIC_ASSETS.
Proof.
  apply Exists_exists. exists "/index.html". split.
  - apply (bool_decide_unpack _). vm_compute. done.
  - intros (d & Hnet & Hok). vm_compute in Hnet.
    injection Hnet as <-. vm_compute in Hok. discriminate.
Qed.

(** A new stylesheet, fetched once, then asked for with a fragment while
    offline. *)
Lemma stored_response_is_served_witness :
  exists w',
    on_fetch site offline full
      (get_request "https://ruzanovafit.com/new.css#top" "style")
      (on_fetch site online roomy
         (get_request "https://ruzanovafit.com/new.css" "style") installed).2 =
      (RespondWith (Some (Some 2%nat)), w')
    /\ heap w' !! 2%nat =
         Some (unread {| status := 200; type := "basic"; vary := [];
                         content := "content of https://ruzanovafit.com/new.css" |}).
Proof.
  destruct (stored_response_is_served site online roomy
              (get_request "https://ruzanovafit.com/new.css" "style") installed
              {| status := 200; type := "basic"; vary := [];
                 content := "content of https://ruzanovafit.com/new.css" |})
    as [Hserved _]; [reflexivity | reflexivity | reflexivity | reflexivity |].
  destruct (Hserved (conj eq_refl eq_refl)
              (conj (not_elem_of_nil _) eq_refl) offline full
              (get_request "https://ruzanovafit.com/new.css#top" "style")
              eq_refl eq_refl (conj eq_refl eq_refl))
    as (w' & Hrun & Hheap & _).
  exists w'. split; [exact Hrun | exact Hheap].
Defined.

(** A stylesheet of the manifest, served from the cache. *)
Lemma delivered_response_is_unread_witness :
  exists d,
    heap (on_fetch site offline roomy
            (get_request "https://ruzanovafit.com/styles.css" "style")
            installed).2 !! 0%nat = Some (unread d).
Proof.
  destruct (delivered_response_is_unread site offline roomy
              (get_request "https://ruzanovafit.com/styles.css" "style")
              installed 0%nat) as (_ & Hunread & _); [reflexivity |].
  exact Hunread.
Defined.

(** One icon answers 404: nothing of the manifest is stored. *)
Lemma failed_install_stores_nothing_witness :
  (on_install site one_missing roomy empty_world).1 = Some tt
  /\ storage_match (get_request "https://ruzanovafit.com/index.html" "document")
       (caches (on_install site one_missing roomy empty_world).2) = None.
Proof.
  destruct (failed_install_stores_nothing site one_missing roomy empty_world
              one_missing_fails) as (Hdone & _ & Hkept).
  split; [exact Hdone |].
  destruct (Hkept (get_request "https://ruzanovafit.com/index.html" "document"))
    as [Hmatch _].
  exact Hmatch.
Defined.

Lemma installed_assets_are_cached_witness :
  storage_entry CACHE_NAME (request_of_path site "/styles.css") (caches installed) =
    Some {| status := 200; type := "basic"; vary := [];
            content := "content of https://ruzanovafit.com/styles.css" |}.
Proof.
  destruct (installed_assets_are_cached site online roomy empty_world
              online_serves_manifest eq_refl eq_refl) as [_ Hentries].
  destruct (Hentries "/styles.css") as [_ Hentry].
  - apply (bool_decide_unpack _). vm_compute. done.
  - exact Hentry.
Defined.


(** The stylesheet that only the cache of the previous version holds. *)
Lemma activation_retires_old_entries_witness :
  heap (on_fetch site online roomy
          (get_request "https://ruzanovafit.com/old.css" "style")
          (on_activate before_activation).2).2 !! 0%nat =
    Some (unread {| status := 200; type := "basic"; vary := [];
                    content := "content of https://ruzanovafit.com/old.css" |}).
Proof.
  destruct (activation_retires_old_entries site online roomy before_activation)
    as [_ Hfetch].
  destruct (Hfetch (get_request "https://ruzanovafit.com/old.css" "style")
              {| status := 200; type := "basic"; vary := [];
                 content := "content of https://ruzanovafit.com/old.css" |})
    as (_ & Hheap & _); [reflexivity | reflexivity | reflexivity | reflexivity |].
  exact Hheap.
Defined.

(** The cache of the previous version through a request and an install. *)
Lemma other_caches_are_not_written_witness :
  storage_entry "ruzanova-fitness-v3"
    (get_request "https://ruzanovafit.com/old.css" "style")
    (caches (on_install site online roomy before_activation).2) =
    Some {| status := 200; type := "basic"; vary := []; content := "old" |}.
Proof.
  destruct (other_caches_are_not_written site online roomy "ruzanova-fitness-v3"
              (get_request "https://ruzanovafit.com/old.css" "style")
              before_activation)
    as [[Hinstall _] _]; [discriminate |].
  rewrite Hinstall. reflexivity.
Defined.

(** Every asset answers with a partial response: nothing is stored. *)
Lemma refused_install_stores_nothing_witness :
  (on_install site partial roomy empty_world).1 = Some tt
  /\ storage_match (get_request "https://ruzanovafit.com/index.html" "document")
       (caches (on_install site partial roomy empty_world).2) = None.
Proof.
  destruct (refused_install_stores_nothing site partial roomy empty_world
              (or_introl partial_is_refused)) as (Hdone & Hkept).
  split; [exact Hdone |].
  destruct (Hkept (get_request "https://ruzanovafit.com/index.html" "document"))
    as [Hmatch _].
  exact Hmatch.
Defined.

(** A deploy over the previous version, then a request, a reinstall
    without network and a second activation. *)
Lemma only_current_cache_after_activation_witness :
  current_only
    (caches (run site
               [ (online, roomy,
                  Fetch (get_request "https://ruzanovafit.com/new.css" "style"));
                 (offline, full, Install);
                 (online, roomy, Activate) ]
               (on_activate before_activation).2)).
Proof.
  apply (only_current_cache_after_activation site).
  vm_compute. apply NoDup_cons. split; [| apply NoDup_singleton].
  apply not_elem_of_cons. split; [discriminate | apply not_elem_of_nil].
Defined.

End ServiceWorkerProofs.
